(** * Agent Registry & Discovery Platform: the query-and-cache layer

    A shallow embedding of [src/server.js]: the request validation schemas,
    the search-query construction of the [/search] handler, the response
    shaping, the card cache and its statistics, and the handlers that write
    to the document index.  External collaborators (Joi, Elasticsearch,
    node-cache, axios, the clock) are modelled by their documented contract
    or appear as explicit inputs of a handler. *)

From Stdlib Require Import QArith ZArith String Ascii List Bool Lia.
From stdpp Require Import gmap strings list fin_maps pretty.

Local Open Scope string_scope.
Local Open Scope Z_scope.

(** ** JavaScript values the handlers rely on *)

Module JS.

(** A finite JavaScript number.  Every number that passes the schemas is
    finite, so it is an exact rational. *)
Definition number := Q.

(** Results of [/], which may leave the finite numbers. *)
Inductive arith : Type :=
| NaN
| Infinity (negative : bool)
| Fin (x : number).

(** [ToBoolean] on a number: zero is falsy. *)
Definition truthy_number (x : number) : bool := negb (Qeq_bool x 0).

(** [ToBoolean] on a string: the empty string is falsy. *)
Definition truthy_string (s : string) : bool :=
  match s with
  | EmptyString => false
  | String _ _ => true
  end.

(** [ToBoolean] on a possibly [undefined] value. *)
Definition truthy_opt {A} (t : A -> bool) (o : option A) : bool :=
  match o with
  | Some a => t a
  | None => false
  end.

Definition truthy_arith (x : arith) : bool :=
  match x with
  | NaN => false
  | Infinity _ => true
  | Fin q => truthy_number q
  end.

(** [a / b] on finite numbers. *)
Definition div (a b : number) : arith :=
  if Qeq_bool b 0 then
    if Qeq_bool a 0 then NaN else Infinity (negb (Qle_bool 0 a))
  else Fin (a / b)%Q.

(** [x || d]. *)
Definition or_else (x d : arith) : arith := if truthy_arith x then x else d.

(** [Number.MAX_SAFE_INTEGER]. *)
Definition MAX_SAFE_INTEGER : Z := 9007199254740991.

(** The double nearest to an integer, ties to even: an integer below 2^53
    in magnitude is a double; above, only 53 significant bits are kept.
    Magnitudes beyond the largest double are not modelled. *)
Definition to_double (n : Z) : Z :=
  let a := Z.abs n in
  if a <? 2 ^ 53 then n
  else
    let e := Z.log2 a - 52 in
    let q := a / 2 ^ e in
    let r := a mod 2 ^ e in
    let half := 2 ^ (e - 1) in
    let q' := if (half <? r) || ((r =? half) && Z.odd q) then q + 1 else q in
    Z.sgn n * (q' * 2 ^ e).

(** [a - b] and [a * b] on numbers that are integers: the exact result,
    rounded to a double. *)
Definition minus (a b : Z) : Z := to_double (a - b).

Definition times (a b : Z) : Z := to_double (a * b).

(** White space removed by [String.prototype.trim], restricted to the
    code units below 128. *)
Definition is_white_space (c : ascii) : bool :=
  let n := nat_of_ascii c in
  ((9 <=? n) && (n <=? 13))%nat || (n =? 32)%nat.

Fixpoint trim_start (s : string) : string :=
  match s with
  | EmptyString => EmptyString
  | String c r => if is_white_space c then trim_start r else s
  end.

Fixpoint trim_end (s : string) : string :=
  match s with
  | EmptyString => EmptyString
  | String c r =>
      match trim_end r with
      | EmptyString => if is_white_space c then EmptyString else String c EmptyString
      | r' => String c r'
      end
  end.

(** [s.trim()]. *)
Definition trim (s : string) : string := trim_end (trim_start s).

(** [s.split(sep)] for a one-character separator. *)
Fixpoint split (sep : ascii) (s : string) : list string :=
  match s with
  | EmptyString => [EmptyString]
  | String c r =>
      if Ascii.eqb c sep then EmptyString :: split sep r
      else match split sep r with
           | h :: t => String c h :: t
           | [] => [String c EmptyString]
           end
  end.

End JS.

(** ** Validation errors

    Joi stops at the first failing key ([abortEarly]) and reports one
    detail; the handlers answer 400 with its message. *)

Inductive JoiError : Type :=
| AnyRequired (key : string)          (* "key" is required *)
| StringEmpty (key : string)          (* "key" is not allowed to be empty *)
| AnyOnly (key : string)              (* "key" must be one of [...] *)
| StringUri (key : string)            (* "key" must be a valid uri *)
| NumberUnsafe (key : string)         (* "key" must be a safe number *)
| NumberMin (key : string)            (* "key" must be greater than or equal to ... *)
| NumberMax (key : string)            (* "key" must be less than or equal to ... *)
| NumberBase (key : string)           (* "key" must be a number *)
| NumberInteger (key : string).       (* "key" must be an integer *)

Module Joi.

Definition result (A : Type) : Type := JoiError + A.

Definition bind {A B} (r : result A) (k : A -> result B) : result B :=
  match r with
  | inl e => inl e
  | inr a => k a
  end.

(** [Joi.string()]: the empty string is not allowed. *)
Definition string_ (key : string) (s : string) : result string :=
  if JS.truthy_string s then inr s else inl (StringEmpty key).

(** [.optional()]: [undefined] passes through. *)
Definition optional {A B} (check : A -> result B) (o : option A) : result (option B) :=
  match o with
  | None => inr None
  | Some a => bind (check a) (fun a' => inr (Some a'))
  end.

(** [.required()]. *)
Definition required {A B} (key : string) (check : A -> result B) (o : option A) : result B :=
  match o with
  | None => inl (AnyRequired key)
  | Some a => check a
  end.

(** [.default(d)]. *)
Definition default {A B} (d : B) (check : A -> result B) (o : option A) : result B :=
  match o with
  | None => inr d
  | Some a => check a
  end.

(** [Joi.string().valid(...)]: the allowed values are tested first, so an
    empty string is reported as not being one of them. *)
Definition string_valid (key : string) (allowed : list string) (s : string) : result string :=
  if existsb (String.eqb s) allowed then inr s else inl (AnyOnly key).

(** The magnitude Joi accepts of a number, [unsafe] not being set.  The
    test of the text a number was converted from is in [from_text]. *)
Definition safe (x : Q) : bool :=
  Qle_bool (inject_Z (- JS.MAX_SAFE_INTEGER)) x && Qle_bool x (inject_Z JS.MAX_SAFE_INTEGER).

(** [Joi.number().min(lo).max(hi)]. *)
Definition number_range (key : string) (lo hi : Q) (x : Q) : result Q :=
  if negb (safe x) then inl (NumberUnsafe key)
  else if negb (Qle_bool lo x) then inl (NumberMin key)
  else if negb (Qle_bool x hi) then inl (NumberMax key)
  else inr x.

(** [Joi.number().integer().min(lo)] with an optional [.max(hi)], on a
    value that is already an integer. *)
Definition integer_range (key : string) (lo : Z) (hi : option Z) (n : Z) : result Z :=
  if negb ((- JS.MAX_SAFE_INTEGER <=? n) && (n <=? JS.MAX_SAFE_INTEGER)) then inl (NumberUnsafe key)
  else if n <? lo then inl (NumberMin key)
  else match hi with
       | Some h => if h <? n then inl (NumberMax key) else inr n
       | None => inr n
       end.

(** What Joi's conversion makes of the text of a query parameter that the
    schema declares as a number. *)
Inductive converted : Type :=
| number (x : Q)      (* numeric text that survives the round trip through a
                         double, and the double it converts to *)
| unsafe_text         (* numeric text that does not survive it *)
| not_numeric.        (* any other text *)

(** A rule for numbers, applied to the text of a query parameter. *)
Definition from_text {B} (key : string) (rule : Q -> result B) (c : converted) : result B :=
  match c with
  | number x => rule x
  | unsafe_text => inl (NumberUnsafe key)
  | not_numeric => inl (NumberBase key)
  end.

(** [.integer()]: the number has no fractional part. *)
Definition integer (key : string) (x : Q) : result Z :=
  if negb (safe x) then inl (NumberUnsafe key)
  else if (Zpos (Qden (Qred x)) =? 1)%Z then inr (Qnum (Qred x))
  else inl (NumberInteger key).

(** [Joi.number().min(lo).max(hi)] on the text of a query parameter. *)
Definition number_text (key : string) (lo hi : Q) : converted -> result Q :=
  from_text key (number_range key lo hi).

(** [Joi.number().integer().min(lo)] with an optional [.max(hi)] on the
    text of a query parameter. *)
Definition integer_text (key : string) (lo : Z) (hi : option Z) : converted -> result Z :=
  from_text key (fun x => bind (integer key x) (integer_range key lo hi)).

End Joi.

Notation "'check' x := c1 'in' c2" := (Joi.bind c1 (fun x => c2))
  (at level 10, x name, c1 at level 100, c2 at level 200).

(** ** The search request and its schema *)

Inductive SortMode : Type := relevance | name_ | updatedAt_ | distance_.

Definition parse_sort (s : string) : option SortMode :=
  if String.eqb s "relevance" then Some relevance
  else if String.eqb s "name" then Some name_
  else if String.eqb s "updatedAt" then Some updatedAt_
  else if String.eqb s "distance" then Some distance_
  else None.

(** [Joi.string().valid('relevance', 'name', 'updatedAt', 'distance')]. *)
Definition sort_valid (s : string) : Joi.result SortMode :=
  match parse_sort s with
  | Some m => inr m
  | None => inl (AnyOnly "sort")
  end.

(** [req.query] as the schema receives it: every key may be missing, and
    the parameters declared as numbers are given by what Joi's conversion
    makes of their text. *)
Module Query.
Record t : Type := mk {
  q : option string;
  tags : option string;
  status : option string;
  version : option string;
  city : option string;
  country : option string;
  lat : option Joi.converted;
  lon : option Joi.converted;
  page : option Joi.converted;
  perPage : option Joi.converted;
  sort : option string
}.

(** A request with no parameter at all. *)
Definition empty : t :=
  mk None None None None None None None None None None None.
End Query.

(** The validated [value] destructured by the [/search] handler. *)
Module Search.
Record t : Type := mk {
  q : option string;
  tags : option string;
  status : option string;
  version : option string;
  city : option string;
  country : option string;
  lat : option Q;
  lon : option Q;
  page : Z;
  perPage : Z;
  sort : SortMode
}.
End Search.

Definition status_values : list string := ["active"; "inactive"; "maintenance"].

(** [searchQuerySchema.validate(req.query)]; keys are checked in the order
    of the schema. *)
Definition searchQuerySchema (rq : Query.t) : Joi.result Search.t :=
  check q := Joi.optional (Joi.string_ "q") (Query.q rq) in
  check tags := Joi.optional (Joi.string_ "tags") (Query.tags rq) in
  check status := Joi.optional (Joi.string_valid "status" status_values) (Query.status rq) in
  check version := Joi.optional (Joi.string_ "version") (Query.version rq) in
  check city := Joi.optional (Joi.string_ "city") (Query.city rq) in
  check country := Joi.optional (Joi.string_ "country") (Query.country rq) in
  check lat := Joi.optional (Joi.number_text "lat" (-90) 90) (Query.lat rq) in
  check lon := Joi.optional (Joi.number_text "lon" (-180) 180) (Query.lon rq) in
  check page := Joi.default 1 (Joi.integer_text "page" 1 None) (Query.page rq) in
  check perPage := Joi.default 20 (Joi.integer_text "perPage" 1 (Some 100)) (Query.perPage rq) in
  check sort := Joi.default relevance sort_valid (Query.sort rq) in
  inr (Search.mk q tags status version city country lat lon page perPage sort).

(** ** The structured query sent to the index *)

Inductive Order : Type := asc | desc.

Inductive MustClause : Type :=
| multi_match (query : string) (fields : list string) (fuzziness type_ : string).

Inductive FilterClause : Type :=
| terms (field : string) (values : list string)
| term (field : string) (value : string).

Inductive SortClause : Type :=
| _geo_distance (field : string) (lat lon : Q) (order : Order) (unit_ : string)
| field_sort (field : string) (order : Order).

Inductive Aggregation : Type :=
| terms_agg (name field : string).

Inductive EsQuery : Type :=
| match_all
| bool_ (must : list MustClause) (filter_ : list FilterClause).

Definition must_of (q : EsQuery) : list MustClause :=
  match q with
  | match_all => []
  | bool_ must _ => must
  end.

Definition filter_of (q : EsQuery) : list FilterClause :=
  match q with
  | match_all => []
  | bool_ _ filter => filter
  end.

Record SearchBody : Type := {
  query : EsQuery;
  sortClause : list SortClause;
  from : Z;
  size_ : Z;
  aggs : list Aggregation
}.

(** [arr.push(x)]. *)
Definition push {A} (arr : list A) (x : A) : list A := arr ++ [x].

(** The body built by the [/search] handler between validation and the call
    to [client.search]. *)
Definition compile (v : Search.t) : SearchBody :=
  let from := JS.times (JS.minus (Search.page v) 1) (Search.perPage v) in
  let must := [] in
  let filter := [] in
  let sortClause := [] in
  (* Text search *)
  let must :=
    match Search.q v with
    | Some q =>
        if JS.truthy_string q
        then push must (multi_match q ["name^2"; "description"; "capabilities"] "AUTO" "best_fields")
        else must
    | None => must
    end in
  (* Tag filter *)
  let filter :=
    match Search.tags v with
    | Some tags =>
        if JS.truthy_string tags
        then push filter (terms "tags" (map JS.trim (JS.split "," tags)))
        else filter
    | None => filter
    end in
  (* Status filter *)
  let filter :=
    match Search.status v with
    | Some status => if JS.truthy_string status then push filter (term "status" status) else filter
    | None => filter
    end in
  (* Version filter *)
  let filter :=
    match Search.version v with
    | Some version => if JS.truthy_string version then push filter (term "version" version) else filter
    | None => filter
    end in
  (* Geo sorting: [if (lat && lon)] *)
  let sortClause :=
    match Search.lat v, Search.lon v with
    | Some lat, Some lon =>
        if JS.truthy_number lat && JS.truthy_number lon
        then push sortClause (_geo_distance "location.coordinates" lat lon asc "km")
        else sortClause
    | _, _ => sortClause
    end in
  (* Other sorting *)
  let sortClause :=
    match Search.sort v with
    | name_ => push sortClause (field_sort "name.keyword" asc)
    | updatedAt_ => push sortClause (field_sort "updatedAt" desc)
    | relevance | distance_ =>
        if negb (JS.truthy_opt JS.truthy_string (Search.q v))
        then push sortClause (field_sort "updatedAt" desc)
        else sortClause
    end in
  {| query := bool_ must filter;
     sortClause := sortClause;
     from := from;
     size_ := Search.perPage v;
     aggs := [terms_agg "tags" "tags"; terms_agg "status" "status"] |}.

(** ** Agent records and the registration schema *)

(** [req.body] of [POST /registry] as the schema receives it. *)
Module Body.
Record coords : Type := mk_coords {
  lat : option Q;
  lon : option Q
}.

Record loc : Type := mk_loc {
  coordinates : option coords;
  city : option string;
  country : option string
}.

Record t : Type := mk {
  agentId : option string;
  name : option string;
  description : option string;
  url : option string;
  tags : option (list string);
  status : option string;
  version : option string;
  capabilities : option string;
  location : option loc
}.
End Body.

(** The validated [value], defaults filled in. *)
Module Registration.
Record coords : Type := mk_coords {
  lat : Q;
  lon : Q
}.

Record loc : Type := mk_loc {
  coordinates : coords;
  city : option string;
  country : option string
}.

Record t : Type := mk {
  agentId : string;
  name : string;
  description : string;
  url : string;
  tags : list string;
  status : string;
  version : string;
  capabilities : string;
  location : option loc
}.
End Registration.

(** The document held by the index: [{ ...value, updatedAt }], in which
    [location.coordinates] is either the object of the request or an array
    of numbers. *)
Module AgentData.
Inductive coords : Type :=
| coords_object (c : Registration.coords)     (* { lat, lon } *)
| coords_array (xs : list Q).                 (* [ x0, x1, ... ] *)

Record loc : Type := mk_loc {
  coordinates : coords;
  city : option string;
  country : option string
}.

Record t : Type := mk {
  agentId : string;
  name : string;
  description : string;
  url : string;
  tags : list string;
  status : string;
  version : string;
  capabilities : string;
  location : option loc;
  updatedAt : string
}.
End AgentData.

(** [Joi.array().items(Joi.string())], items checked from index [i] on. *)
Fixpoint array_of_strings (key : string) (i : nat) (items : list string) : Joi.result (list string) :=
  match items with
  | [] => inr []
  | x :: rest =>
      check x' := Joi.string_ (key +:+ "[" +:+ pretty i +:+ "]") x in
      check rest' := array_of_strings key (S i) rest in
      inr (x' :: rest')
  end.

Section RegistrationSchema.

(** The RFC 3986 test behind [Joi.string().uri()]. *)
Variable is_uri : string -> bool.

Definition string_uri (key : string) (s : string) : Joi.result string :=
  check s' := Joi.string_ key s in
  if is_uri s' then inr s' else inl (StringUri key).

Definition coordinates_schema (c : Body.coords) : Joi.result Registration.coords :=
  check lat := Joi.required "location.coordinates.lat"
                 (Joi.number_range "location.coordinates.lat" (-90) 90) (Body.lat c) in
  check lon := Joi.required "location.coordinates.lon"
                 (Joi.number_range "location.coordinates.lon" (-180) 180) (Body.lon c) in
  inr (Registration.mk_coords lat lon).

Definition location_schema (l : Body.loc) : Joi.result Registration.loc :=
  check coordinates := match Body.coordinates l with
                       | None => inl (AnyRequired "location.coordinates")
                       | Some c => coordinates_schema c
                       end in
  check city := Joi.optional (Joi.string_ "location.city") (Body.city l) in
  check country := Joi.optional (Joi.string_ "location.country") (Body.country l) in
  inr (Registration.mk_loc coordinates city country).

(** [agentRegistrationSchema.validate(req.body)]. *)
Definition agentRegistrationSchema (b : Body.t) : Joi.result Registration.t :=
  check agentId := Joi.required "agentId" (Joi.string_ "agentId") (Body.agentId b) in
  check name := Joi.required "name" (Joi.string_ "name") (Body.name b) in
  check description := Joi.required "description" (Joi.string_ "description") (Body.description b) in
  check url := Joi.required "url" (string_uri "url") (Body.url b) in
  check tags := Joi.default [] (array_of_strings "tags" 0) (Body.tags b) in
  check status := Joi.default "active" (Joi.string_valid "status" status_values) (Body.status b) in
  check version := Joi.default "1.0.0" (Joi.string_ "version") (Body.version b) in
  check capabilities := Joi.default "" (Joi.string_ "capabilities") (Body.capabilities b) in
  check location := Joi.optional location_schema (Body.location b) in
  inr (Registration.mk agentId name description url tags status version capabilities location).

End RegistrationSchema.

(** [{ ...value, updatedAt: new Date().toISOString() }] followed by the
    rewrite of [location.coordinates] into the pair the index expects. *)
Definition agentData_of (value : Registration.t) (now_iso : string) : AgentData.t :=
  let location :=
    match Registration.location value with
    | Some l =>
        (* [if (agentData.location && agentData.location.coordinates)]:
           both are objects, hence truthy *)
        let c := Registration.coordinates l in
        Some (AgentData.mk_loc
                (AgentData.coords_array [Registration.lon c; Registration.lat c])
                (Registration.city l) (Registration.country l))
    | None => None
    end in
  AgentData.mk (Registration.agentId value) (Registration.name value)
    (Registration.description value) (Registration.url value) (Registration.tags value)
    (Registration.status value) (Registration.version value)
    (Registration.capabilities value) location now_iso.

(** ** Agent cards

    A card is whatever JSON the agent serves, so it is kept as a generic
    JavaScript value; objects are finite maps from property names. *)

#[local] Unset Elimination Schemes.
Inductive jsval : Type :=
| JNull
| JBool (b : bool)
| JNumber (x : Q)
| JString (s : string)
| JArray (l : list jsval)
| JObject (m : gmap string jsval).
#[local] Set Elimination Schemes.

Fixpoint chars (s : string) : list jsval :=
  match s with
  | EmptyString => []
  | String c r => JString (String c EmptyString) :: chars r
  end.

(** The own enumerable properties copied by an object spread [{ ...v }]. *)
Definition own_properties (v : jsval) : gmap string jsval :=
  match v with
  | JObject m => m
  | JArray l => list_to_map (imap (fun i x => (pretty i, x)) l)
  | JString s => list_to_map (imap (fun i x => (pretty i, x)) (chars s))
  | JNull | JBool _ | JNumber _ => ∅
  end.

(** ** The world a handler runs in *)

(** Requests sent to the Elasticsearch cluster. *)
Inductive EsCall : Type :=
| cluster_health
| index_doc (id : string)
| indices_refresh
| get_doc (id : string)
| delete_doc (id : string)
| search_docs (body : SearchBody).

(** Outbound calls, in the order they were issued. *)
Inductive Call : Type :=
| to_cluster (c : EsCall)
| http_get (url : string).

(** What a handler throws. *)
Inductive Exn : Type :=
| ResponseError (statusCode : Z)     (* the cluster answered with an error status *)
| ConnectionError                    (* no answer from the cluster: no [meta.statusCode] *)
| AxiosError.                        (* timeout, connection error or non-2xx response *)

Record ClusterHealth : Type := {
  health_status : string;
  cluster_name : string;
  number_of_nodes : Z
}.

Definition Aggregations : Type := list (string * list (string * Z)).

(** Everything a handler reads from outside the process during one
    request. *)
Record Env : Type := {
  (** [Date.now()] *)
  now_ms : Z;
  (** [new Date().toISOString()] *)
  now_iso : string;
  (** whether the cluster answers a call *)
  reachable : EsCall -> bool;
  (** [response.data] of [axios.get(url, { timeout: 5000 })]; [None] when
      the promise is rejected *)
  origin : string -> option jsval;
  (** the analysed, fuzzy match of a must clause on a document and its
      score; [None] when the document does not match *)
  text_score : MustClause -> AgentData.t -> option Q;
  (** the distance in kilometres computed by the engine *)
  distance_km : Q -> Q -> AgentData.coords -> Q;
  (** the bucket counts computed by the engine *)
  aggregate : list Aggregation -> list AgentData.t -> Aggregations;
  (** [client.cluster.health()] *)
  cluster : ClusterHealth
}.

(** [cacheStats]. *)
Module CacheStats.
Record t : Type := mk {
  hits : nat;
  misses : nat;
  size : nat
}.
End CacheStats.

(** A value wrapped by node-cache: [{ t: expiry in ms, v: value }]. *)
Module Wrapped.
Record wrapped : Type := mk {
  t : Z;
  v : gmap string jsval
}.
End Wrapped.

(** The mutable state of the process and of the index it talks to.  The
    index keeps the documents themselves ([live], read by get and delete)
    and the point-in-time view searches run against ([visible]), which a
    refresh brings up to date. *)
Record State : Type := {
  live : gmap string AgentData.t;
  visible : gmap string AgentData.t;
  agentCache : gmap string Wrapped.wrapped;
  cacheStats : CacheStats.t;
  outbound : list Call
}.

Definition initial : State :=
  {| live := ∅; visible := ∅; agentCache := ∅;
     cacheStats := CacheStats.mk 0 0 0; outbound := [] |}.

Definition set_live (f : gmap string AgentData.t -> gmap string AgentData.t) (s : State) : State :=
  {| live := f (live s); visible := visible s; agentCache := agentCache s;
     cacheStats := cacheStats s; outbound := outbound s |}.

Definition set_visible (m : gmap string AgentData.t) (s : State) : State :=
  {| live := live s; visible := m; agentCache := agentCache s;
     cacheStats := cacheStats s; outbound := outbound s |}.

Definition set_agentCache (f : gmap string Wrapped.wrapped -> gmap string Wrapped.wrapped) (s : State) : State :=
  {| live := live s; visible := visible s; agentCache := f (agentCache s);
     cacheStats := cacheStats s; outbound := outbound s |}.

Definition set_cacheStats (c : CacheStats.t) (s : State) : State :=
  {| live := live s; visible := visible s; agentCache := agentCache s;
     cacheStats := c; outbound := outbound s |}.

Definition record_call (c : Call) (s : State) : State :=
  {| live := live s; visible := visible s; agentCache := agentCache s;
     cacheStats := cacheStats s; outbound := outbound s ++ [c] |}.

(** ** Handler computations: state, exceptions, environment *)

Definition M (A : Type) : Type := Env -> State -> (Exn + A) * State.

Definition ret {A} (a : A) : M A := fun _ s => (inr a, s).

Definition throw {A} (e : Exn) : M A := fun _ s => (inl e, s).

Definition bind {A B} (m : M A) (k : A -> M B) : M B :=
  fun env s =>
    match m env s with
    | (inr a, s') => k a env s'
    | (inl e, s') => (inl e, s')
    end.

(** [try { body } catch (e) { handler(e) }]. *)
Definition try_catch {A} (body : M A) (handler : Exn -> M A) : M A :=
  fun env s =>
    match body env s with
    | (inr a, s') => (inr a, s')
    | (inl e, s') => handler e env s'
    end.

Definition ask : M Env := fun env s => (inr env, s).

Definition get_state : M State := fun _ s => (inr s, s).

Definition modify (f : State -> State) : M unit := fun _ s => (inr tt, f s).

Notation "x <- c1 ;; c2" := (bind c1 (fun x => c2))
  (at level 100, c1 at next level, right associativity).
Notation "c1 ;; c2" := (bind c1 (fun _ => c2))
  (at level 100, right associativity).

(** ** The document index (Elasticsearch, as the handlers use it) *)

Definition INDEX_NAME : string := "agents".

(** Every request is logged, then fails with a connection error when the
    cluster does not answer. *)
Definition call_cluster (c : EsCall) : M unit :=
  modify (record_call (to_cluster c)) ;;
  env <- ask ;;
  if reachable env c then ret tt else throw ConnectionError.

(** [client.index({ index, id, body })]: create or replace the document. *)
Definition client_index (id : string) (body : AgentData.t) : M unit :=
  call_cluster (index_doc id) ;;
  modify (set_live <[id := body]>).

(** [client.indices.refresh({ index })]: searches now see every write. *)
Definition client_indices_refresh : M unit :=
  call_cluster indices_refresh ;;
  s <- get_state ;;
  modify (set_visible (live s)).

(** [client.get({ index, id })]: real-time read; 404 when missing. *)
Definition client_get (id : string) : M AgentData.t :=
  call_cluster (get_doc id) ;;
  s <- get_state ;;
  match live s !! id with
  | Some d => ret d
  | None => throw (ResponseError 404)
  end.

(** [client.delete({ index, id })]: 404 when missing. *)
Definition client_delete (id : string) : M unit :=
  call_cluster (delete_doc id) ;;
  s <- get_state ;;
  match live s !! id with
  | Some _ => modify (set_live (delete id))
  | None => throw (ResponseError 404)
  end.

(** The periodic refresh the index performs on its own, at times the
    handlers do not control. *)
Definition background_refresh (s : State) : State := set_visible (live s) s.

(** The values a hit is sorted by, returned in [hit.sort]. *)
Inductive SortValue : Type :=
| sv_number (x : Q)            (* a distance *)
| sv_keyword (s : string)      (* a keyword field *)
| sv_date (iso : string)       (* a date field, identified by its ISO text *)
| sv_missing.                  (* the document has no value *)

Definition sort_value (env : Env) (d : AgentData.t) (c : SortClause) : SortValue :=
  match c with
  | _geo_distance _ lat lon _ _ =>
      match AgentData.location d with
      | Some l => sv_number (distance_km env lat lon (AgentData.coordinates l))
      | None => sv_missing
      end
  | field_sort field _ =>
      if String.eqb field "name.keyword" then sv_keyword (AgentData.name d)
      else if String.eqb field "updatedAt" then sv_date (AgentData.updatedAt d)
      else sv_missing
  end.

(** [hit.sort] is present exactly when the request has sort clauses, with
    one value per clause. *)
Definition sort_values (env : Env) (clauses : list SortClause) (d : AgentData.t)
  : option (list SortValue) :=
  match clauses with
  | [] => None
  | _ => Some (map (sort_value env d) clauses)
  end.

Record Hit : Type := {
  _source : AgentData.t;
  _score : option Q;
  sort : option (list SortValue)
}.

Record SearchResult : Type := {
  hits_hits : list Hit;
  hits_total_value : Z;
  aggregations : Aggregations
}.

Definition filter_matches (d : AgentData.t) (f : FilterClause) : bool :=
  match f with
  | terms field values =>
      String.eqb field "tags"
      && existsb (fun tag => existsb (String.eqb tag) values) (AgentData.tags d)
  | term field value =>
      if String.eqb field "status" then String.eqb (AgentData.status d) value
      else if String.eqb field "version" then String.eqb (AgentData.version d) value
      else false
  end.

(** The relevance score of a document, [None] when it does not match. *)
Definition score_of (env : Env) (q : EsQuery) (d : AgentData.t) : option Q :=
  match q with
  | match_all => Some 1%Q
  | bool_ must filter =>
      if forallb (filter_matches d) filter
      then fold_right (fun m acc =>
                         match text_score env m d, acc with
                         | Some x, Some y => Some (x + y)%Q
                         | _, _ => None
                         end) (Some 0%Q) must
      else None
  end.

Definition order_sign (o : Order) (c : comparison) : comparison :=
  match o with
  | asc => c
  | desc => CompOpp c
  end.

Definition compare_values (a b : SortValue) : comparison :=
  match a, b with
  | sv_number x, sv_number y => Qcompare x y
  | sv_keyword x, sv_keyword y => String.compare x y
  | sv_date x, sv_date y => String.compare x y
  | _, _ => Eq
  end.

Definition clause_order (c : SortClause) : Order :=
  match c with
  | _geo_distance _ _ _ o _ => o
  | field_sort _ o => o
  end.

(** Comparison by one clause: documents without a value come last. *)
Definition compare_clause (env : Env) (c : SortClause) (a b : AgentData.t) : comparison :=
  match sort_value env a c, sort_value env b c with
  | sv_missing, sv_missing => Eq
  | sv_missing, _ => Gt
  | _, sv_missing => Lt
  | x, y => order_sign (clause_order c) (compare_values x y)
  end.

(** Lexicographic comparison by the sort clauses. *)
Fixpoint compare_by (env : Env) (clauses : list SortClause) (a b : AgentData.t) : comparison :=
  match clauses with
  | [] => Eq
  | c :: rest =>
      match compare_clause env c a b with
      | Eq => compare_by env rest a b
      | r => r
      end
  end.

(** Hits are ordered by the sort clauses and, without any, by descending
    score; ties keep the order of the index. *)
Definition before (env : Env) (body : SearchBody) (a b : AgentData.t * Q) : bool :=
  match sortClause body with
  | [] => match Qcompare (snd b) (snd a) with Gt => false | _ => true end
  | clauses => match compare_by env clauses (fst a) (fst b) with Gt => false | _ => true end
  end.

Fixpoint insert_sorted {A} (le : A -> A -> bool) (x : A) (l : list A) : list A :=
  match l with
  | [] => [x]
  | y :: rest => if le x y then x :: l else y :: insert_sorted le x rest
  end.

Definition sort_by {A} (le : A -> A -> bool) (l : list A) : list A :=
  fold_right (insert_sorted le) [] l.

(** The matching documents of the visible view, with their scores. *)
Definition matching (env : Env) (q : EsQuery) (docs : gmap string AgentData.t)
  : list (AgentData.t * Q) :=
  omap (fun kv => match score_of env q (snd kv) with
                  | Some sc => Some (snd kv, sc)
                  | None => None
                  end) (map_to_list docs).

Definition max_result_window : Z := 10000.

(** The default of [track_total_hits], which neither route overrides:
    matches are counted exactly up to this number and no further. *)
Definition track_total_hits : Z := 10000.

(** [client.search({ index, body })]. *)
Definition client_search (body : SearchBody) : M SearchResult :=
  call_cluster (search_docs body) ;;
  env <- ask ;;
  s <- get_state ;;
  if (from body <? 0) || (size_ body <? 0) || (max_result_window <? from body + size_ body)
  then throw (ResponseError 400)
  else
    let found := matching env (query body) (visible s) in
    let ordered := sort_by (before env body) found in
    let page := take (Z.to_nat (size_ body)) (drop (Z.to_nat (from body)) ordered) in
    ret {| hits_hits :=
             map (fun ds =>
                    {| _source := fst ds;
                       _score := match sortClause body with
                                 | [] => Some (snd ds)
                                 | _ => None
                                 end;
                       sort := sort_values env (sortClause body) (fst ds) |}) page;
           hits_total_value := Z.min (Z.of_nat (length found)) track_total_hits;
           aggregations := aggregate env (aggs body) (map fst found) |}.

(** ** The card cache (node-cache, [useClones: false]) *)

(** [stdTTL], in seconds. *)
Definition stdTTL : Z := 300.

(** [checkperiod], in seconds. *)
Definition checkperiod : Z := 60.

Definition expired (now : Z) (w : Wrapped.wrapped) : bool :=
  negb (Wrapped.t w =? 0) && (Wrapped.t w <? now).

(** [agentCache.get(key)]: an expired entry is deleted and reported as
    [undefined]. *)
Definition agentCache_get (key : string) : M (option (gmap string jsval)) :=
  env <- ask ;;
  s <- get_state ;;
  match agentCache s !! key with
  | Some w =>
      if expired (now_ms env) w
      then modify (set_agentCache (delete key)) ;; ret None
      else ret (Some (Wrapped.v w))
  | None => ret None
  end.

(** [agentCache.set(key, value)] with the default time to live. *)
Definition agentCache_set (key : string) (value : gmap string jsval) : M unit :=
  env <- ask ;;
  modify (set_agentCache <[key := Wrapped.mk (now_ms env + stdTTL * 1000) value]>).

(** [agentCache.del(key)]. *)
Definition agentCache_del (key : string) : M unit :=
  modify (set_agentCache (delete key)).

(** [agentCache.flushAll()]. *)
Definition agentCache_flushAll : M unit :=
  modify (set_agentCache (fun _ => ∅)).

(** The sweep node-cache runs every [checkperiod] seconds. *)
Definition check_data (now : Z) (s : State) : State :=
  set_agentCache (filter (fun kw => expired now (snd kw) = false)) s.

Record NodeCacheStats : Type := {
  keys : Z;
  ksize : Z;
  vsize : Z
}.

(** [objectValueSize]. *)
Definition objectValueSize : Z := 80.

(** [agentCache.getStats()]: the number of keys, the summed key lengths and
    the summed value sizes, an object counting [objectValueSize] per
    property. *)
Definition agentCache_getStats : M NodeCacheStats :=
  s <- get_state ;;
  let entries := map_to_list (agentCache s) in
  ret {| keys := Z.of_nat (length entries);
         ksize := fold_right (fun kw acc => Z.of_nat (String.length (fst kw)) + acc) 0 entries;
         vsize := fold_right (fun kw acc =>
                                objectValueSize * Z.of_nat (base.size (Wrapped.v (snd kw))) + acc)
                    0 entries |}.

(** ** Responses *)

Record Pagination : Type := {
  pg_page : Z;
  pg_perPage : Z;
  pg_total : Z;
  pg_totalPages : Z
}.

(** [{ ...hit._source, score: hit._score }]. *)
Record Listed : Type := {
  listed_source : AgentData.t;
  listed_score : option Q
}.

(** [{ ...hit._source, score: hit._score, distance: hit.sort?.[0] }]; a
    [distance] that is [undefined] is left out of the JSON text. *)
Record Found : Type := {
  found_source : AgentData.t;
  score : option Q;
  distance : option SortValue
}.

Inductive ResBody : Type :=
| error_body (error : string)
| validation_error (detail : JoiError)
| registered (message agentId : string)
| message_body (message : string)
| metadata_body (source : AgentData.t)
| agents_body (agents : list Listed) (pagination : Pagination)
| search_body (agents : list Found) (pagination : Pagination) (aggs : Aggregations)
| card_body (card : gmap string jsval)
| card_unavailable (error agentId url : string)
| cache_status (size : Z) (hits misses : nat) (hitRate : JS.arith) (keys ksize : Z)
| healthy (timestamp : string) (elasticsearch : ClusterHealth)
    (size : Z) (hits misses : nat) (hitRate : JS.arith)
| unhealthy (error : Exn).

Record Response : Type := {
  status : Z;
  body : ResBody
}.

(** [res.status(code).json(body)]; [res.json(body)] answers 200. *)
Definition json (code : Z) (b : ResBody) : M Response :=
  ret {| status := code; body := b |}.

(** [Math.ceil(total / perPage)] for a non-zero [perPage]. *)
Definition ceil_div (total perPage : Z) : Z := - ((- total) / perPage).

(** [hits / (hits + misses) || 0]. *)
Definition hitRate (c : CacheStats.t) : JS.arith :=
  let hits := inject_Z (Z.of_nat (CacheStats.hits c)) in
  let misses := inject_Z (Z.of_nat (CacheStats.misses c)) in
  JS.or_else (JS.div hits (hits + misses)%Q) (JS.Fin 0%Q).

(** [error.meta?.statusCode === 404]. *)
Definition is_404 (e : Exn) : bool :=
  match e with
  | ResponseError code => code =? 404
  | _ => false
  end.

(** [`agentcard:${agentId}`]. *)
Definition cacheKey (agentId : string) : string := "agentcard:" +:+ agentId.

(** [axios.get(url, { timeout: 5000 })], giving [response.data]. *)
Definition axios_get (url : string) : M jsval :=
  modify (record_call (http_get url)) ;;
  env <- ask ;;
  match origin env url with
  | Some data => ret data
  | None => throw AxiosError
  end.

(** ** The handlers of [server.js] *)

(** [GET /health]. *)
Definition health : M Response :=
  try_catch
    (call_cluster cluster_health ;;
     env <- ask ;;
     cacheInfo <- agentCache_getStats ;;
     s <- get_state ;;
     json 200 (healthy (now_iso env) (cluster env) (vsize cacheInfo)
                 (CacheStats.hits (cacheStats s)) (CacheStats.misses (cacheStats s))
                 (hitRate (cacheStats s))))
    (fun error => json 503 (unhealthy error)).

Section Registry.

Variable is_uri : string -> bool.

(** [POST /registry]. *)
Definition register (b : Body.t) : M Response :=
  try_catch
    (match agentRegistrationSchema is_uri b with
     | inl error => json 400 (validation_error error)
     | inr value =>
         env <- ask ;;
         let agentData := agentData_of value (now_iso env) in
         (* Index the agent metadata *)
         client_index (AgentData.agentId agentData) agentData ;;
         (* Invalidate cache for this agent *)
         agentCache_del (cacheKey (AgentData.agentId agentData)) ;;
         (* Refresh index for immediate searchability *)
         client_indices_refresh ;;
         json 201 (registered "Agent registered successfully" (AgentData.agentId agentData))
     end)
    (fun _ => json 500 (error_body "Failed to register agent")).

End Registry.

(** [parseInt(text) || fallback], on the integer [parseInt] returns, if
    any: [NaN] and 0 are falsy.  The integer is a finite double. *)
Definition parseInt_or (parsed : option Z) (fallback : Z) : Z :=
  match parsed with
  | Some n => if n =? 0 then fallback else n
  | None => fallback
  end.

(** [GET /agents]. *)
Definition listAgents (page perPage : option Z) : M Response :=
  try_catch
    (let page := parseInt_or page 1 in
     let perPage := parseInt_or perPage 20 in
     let from := JS.times (JS.minus page 1) perPage in
     result <- client_search {| query := match_all;
                                sortClause := [field_sort "updatedAt" desc];
                                from := from;
                                size_ := perPage;
                                aggs := [] |} ;;
     json 200 (agents_body
                 (map (fun hit => {| listed_source := _source hit; listed_score := _score hit |})
                    (hits_hits result))
                 {| pg_page := page; pg_perPage := perPage;
                    pg_total := hits_total_value result;
                    pg_totalPages := ceil_div (hits_total_value result) perPage |}))
    (fun _ => json 500 (error_body "Failed to fetch agents")).

(** [GET /agent/:agentId]. *)
Definition getMetadata (agentId : string) : M Response :=
  try_catch
    (result <- client_get agentId ;;
     json 200 (metadata_body result))
    (fun error =>
       if is_404 error then json 404 (error_body "Agent not found")
       else json 500 (error_body "Failed to fetch agent")).

(** [DELETE /agent/:agentId]. *)
Definition deleteAgent (agentId : string) : M Response :=
  try_catch
    (client_delete agentId ;;
     (* Remove from cache *)
     agentCache_del (cacheKey agentId) ;;
     json 200 (message_body "Agent deleted successfully"))
    (fun error =>
       if is_404 error then json 404 (error_body "Agent not found")
       else json 500 (error_body "Failed to delete agent")).

(** [hit.sort?.[0]]. *)
Definition first_sort_value (hit : Hit) : option SortValue :=
  match sort hit with
  | Some values => head values
  | None => None
  end.

Definition shape_hit (hit : Hit) : Found :=
  {| found_source := _source hit;
     score := _score hit;
     distance := first_sort_value hit (* Geo distance if applicable *) |}.

(** [GET /search]. *)
Definition search (rq : Query.t) : M Response :=
  try_catch
    (match searchQuerySchema rq with
     | inl error => json 400 (validation_error error)
     | inr value =>
         result <- client_search (compile value) ;;
         json 200 (search_body
                     (map shape_hit (hits_hits result))
                     {| pg_page := Search.page value; pg_perPage := Search.perPage value;
                        pg_total := hits_total_value result;
                        pg_totalPages := ceil_div (hits_total_value result) (Search.perPage value) |}
                     (aggregations result))
     end)
    (fun _ => json 500 (error_body "Search failed")).

Definition bump_hits (s : State) : State :=
  set_cacheStats (CacheStats.mk (S (CacheStats.hits (cacheStats s)))
                    (CacheStats.misses (cacheStats s)) (CacheStats.size (cacheStats s))) s.

Definition bump_misses (s : State) : State :=
  set_cacheStats (CacheStats.mk (CacheStats.hits (cacheStats s))
                    (S (CacheStats.misses (cacheStats s))) (CacheStats.size (cacheStats s))) s.

(** [{ ...agentCard, cached: true, fetchTimestamp: agentCard.fetchTimestamp }]. *)
Definition served_from_cache (agentCard : gmap string jsval) : gmap string jsval :=
  let card := <["cached" := JBool true]> agentCard in
  match agentCard !! "fetchTimestamp" with
  | Some stamp => <["fetchTimestamp" := stamp]> card
  | None => delete "fetchTimestamp" card
  end.

(** [{ ...response.data, agentId, cached: false, fetchTimestamp }]. *)
Definition fetched_card (data : jsval) (agentId now_iso : string) : gmap string jsval :=
  <["fetchTimestamp" := JString now_iso]>
    (<["cached" := JBool false]>
       (<["agentId" := JString agentId]> (own_properties data))).

(** [GET /agentcard/:agentId]. *)
Definition getCard (agentId : string) : M Response :=
  try_catch
    (let cacheKey := cacheKey agentId in
     (* Try cache first *)
     agentCard <- agentCache_get cacheKey ;;
     match agentCard with
     | Some agentCard =>
         modify bump_hits ;;
         json 200 (card_body (served_from_cache agentCard))
     | None =>
         modify bump_misses ;;
         (* Get agent metadata *)
         metadata <- client_get agentId ;;
         (* Fetch full agent card from agent's endpoint *)
         try_catch
           (data <- axios_get (AgentData.url metadata +:+ "/.well-known/agent.json") ;;
            env <- ask ;;
            let agentCard := fetched_card data agentId (now_iso env) in
            (* Cache the result *)
            agentCache_set cacheKey agentCard ;;
            json 200 (card_body agentCard))
           (fun fetchError =>
              json 503 (card_unavailable "Failed to fetch agent card" agentId
                          (AgentData.url metadata)))
     end)
    (fun error =>
       if is_404 error then json 404 (error_body "Agent not found")
       else json 500 (error_body "Failed to fetch agent card")).

(** [GET /cache/status]. *)
Definition cacheStatus : M Response :=
  stats <- agentCache_getStats ;;
  s <- get_state ;;
  json 200 (cache_status (vsize stats)
              (CacheStats.hits (cacheStats s)) (CacheStats.misses (cacheStats s))
              (hitRate (cacheStats s)) (keys stats) (ksize stats)).

(** [POST /cache/clear]. *)
Definition cacheClear : M Response :=
  agentCache_flushAll ;;
  modify (set_cacheStats (CacheStats.mk 0 0 0)) ;;
  json 200 (message_body "Cache cleared successfully").

(** One request: the response sent and the state left behind.  A handler
    that lets an exception escape is answered by the error middleware. *)
Definition handle (h : M Response) (env : Env) (s : State) : Response * State :=
  match h env s with
  | (inr r, s') => (r, s')
  | (inl _, s') => ({| status := 500; body := error_body "Internal server error" |}, s')
  end.

(** ** Sample data: the weather agent of the repository's examples *)

Definition weather_agent : AgentData.t :=
  AgentData.mk "weather-agent-001" "Weather Assistant"
    "Provides real-time weather information and forecasts for any location"
    "http://localhost:3001" ["weather"; "forecast"; "location"] "active" "1.2.0"
    "Weather queries, location-based forecasts, historical data"
    (Some (AgentData.mk_loc (AgentData.coords_array [(-74.006)%Q; 40.7128%Q]) None None))
    "2024-01-01T00:00:00.000Z".

(** A state in which the weather agent is indexed and visible to searches,
    as a registration leaves it. *)
Definition weather_registered : State :=
  {| live := {[ "weather-agent-001" := weather_agent ]};
     visible := {[ "weather-agent-001" := weather_agent ]};
     agentCache := ∅;
     cacheStats := CacheStats.mk 0 0 0;
     outbound := [to_cluster (index_doc "weather-agent-001"); to_cluster indices_refresh] |}.

(** A request served while the cluster answers and the agent serves its
    card; the engine's text matching and distance are fixed arbitrarily. *)
Definition sample_env : Env :=
  {| now_ms := 1704067260000;
     now_iso := "2024-01-01T00:01:00.000Z";
     reachable := fun _ => true;
     origin := fun _ => Some (JObject {[ "name" := JString "Weather Assistant" ]});
     text_score := fun _ _ => Some 1%Q;
     distance_km := fun _ _ _ => 0%Q;
     aggregate := fun _ _ => [];
     cluster := {| health_status := "green"; cluster_name := "docker-cluster";
                   number_of_nodes := 1 |} |}.

Definition is_geo_clause (c : SortClause) : bool :=
  match c with
  | _geo_distance _ _ _ _ _ => true
  | field_sort _ _ => false
  end.

(** [GET /search?lat=0&lon=-74.006&sort=distance]: a point on the equator. *)
Definition equator_request : Query.t :=
  Query.mk None None None None None None (Some (Joi.number 0%Q)) (Some (Joi.number (-74.006)%Q))
    None None (Some "distance").

Definition with_q (q : option string) (v : Search.t) : Search.t :=
  Search.mk q (Search.tags v) (Search.status v) (Search.version v) (Search.city v)
    (Search.country v) (Search.lat v) (Search.lon v) (Search.page v) (Search.perPage v)
    (Search.sort v).

(** [GET /search?q=&status=active]. *)
Definition empty_text_request : Query.t :=
  Query.mk (Some "") None (Some "active") None None None None None None None None.

(** [GET /search?sort=name]. *)
Definition by_name_request : Query.t :=
  Query.mk None None None None None None None None None None (Some "name").


(** What [agentCache.get(key)] returns at time [now]. *)
Definition live_entry (now : Z) (cache : gmap string Wrapped.wrapped) (key : string)
  : option (gmap string jsval) :=
  match cache !! key with
  | Some w => if expired now w then None else Some (Wrapped.v w)
  | None => None
  end.

(** The state [agentCache.get(key)] leaves: an expired entry is dropped. *)
Definition purge (now : Z) (key : string) (s : State) : State :=
  match agentCache s !! key with
  | Some w => if expired now w then set_agentCache (delete key) s else s
  | None => s
  end.

(** The address a card is fetched from. *)
Definition card_url (d : AgentData.t) : string := AgentData.url d +:+ "/.well-known/agent.json".


(** A request made one minute after [sample_env]. *)
Definition later_env : Env :=
  {| now_ms := now_ms sample_env + 60000;
     now_iso := "2024-01-01T00:02:00.000Z";
     reachable := reachable sample_env;
     origin := origin sample_env;
     text_score := text_score sample_env;
     distance_km := distance_km sample_env;
     aggregate := aggregate sample_env;
     cluster := cluster sample_env |}.

(** The number of documents the map holds under the id. *)
Definition copies (id : string) (docs : gmap string AgentData.t) : nat :=
  length (filter (fun kv => fst kv = id) (map_to_list docs)).

(** The registration of the weather agent, with its position given as the
    schema requires. *)
Definition weather_body : Body.t :=
  Body.mk (Some "weather-agent-001") (Some "Weather Assistant")
    (Some "Provides real-time weather information and forecasts for any location")
    (Some "http://localhost:3001") (Some ["weather"; "forecast"; "location"])
    (Some "active") (Some "1.2.0")
    (Some "Weather queries, location-based forecasts, historical data")
    (Some (Body.mk_loc (Some (Body.mk_coords (Some 40.7128%Q) (Some (-74.006)%Q))) None None)).

(** The same agent registered again under a new name, without tags,
    capabilities or location. *)
Definition weather_update_body : Body.t :=
  Body.mk (Some "weather-agent-001") (Some "Weather Assistant Pro")
    (Some "Enhanced weather service") (Some "http://localhost:3001") None
    (Some "active") (Some "1.3.0") None None.

(** The request during which the weather agent is registered. *)
Definition registration_env : Env :=
  {| now_ms := 1704067200000;
     now_iso := "2024-01-01T00:00:00.000Z";
     reachable := reachable sample_env;
     origin := origin sample_env;
     text_score := text_score sample_env;
     distance_km := distance_km sample_env;
     aggregate := aggregate sample_env;
     cluster := cluster sample_env |}.

(** A URI test that accepts the one address of the samples. *)
Definition is_sample_uri (u : string) : bool := String.eqb u "http://localhost:3001".

(** A handler that always answers, with one of the given status codes, and
    never leaves an exception to the error middleware. *)
Definition answers (h : M Response) (codes : list Z) : Prop :=
  forall (env : Env) (s : State),
    exists (r : Response) (s' : State), h env s = (inr r, s') /\ In (status r) codes.

(** Two states that differ at most in the log of outbound calls. *)
Definition same_data (s s' : State) : Prop :=
  live s' = live s /\ visible s' = visible s
  /\ agentCache s' = agentCache s /\ cacheStats s' = cacheStats s.

(** A stored location as the registration route writes it: the pair
    [[lon; lat]] within the ranges of the schema, and non-empty labels. *)
Definition well_formed_location (l : AgentData.loc) : Prop :=
  (exists lat lon : Q,
     AgentData.coordinates l = AgentData.coords_array [lon; lat]
     /\ (-90 <= lat)%Q /\ (lat <= 90)%Q /\ (-180 <= lon)%Q /\ (lon <= 180)%Q)
  /\ AgentData.city l <> Some ""
  /\ AgentData.country l <> Some "".

(** A document as the registration route writes it. *)
Definition well_formed (is_uri : string -> bool) (d : AgentData.t) : Prop :=
  AgentData.agentId d <> ""
  /\ AgentData.name d <> ""
  /\ AgentData.description d <> ""
  /\ is_uri (AgentData.url d) = true
  /\ Forall (fun tag => tag <> "") (AgentData.tags d)
  /\ In (AgentData.status d) status_values
  /\ AgentData.version d <> ""
  /\ match AgentData.location d with
     | Some l => well_formed_location l
     | None => True
     end.

(** Every document, live or visible to searches, is well formed and is
    stored under its own [agentId]. *)
Definition index_invariant (is_uri : string -> bool) (s : State) : Prop :=
  (forall (id : string) (d : AgentData.t),
     live s !! id = Some d -> AgentData.agentId d = id /\ well_formed is_uri d)
  /\ (forall (id : string) (d : AgentData.t),
        visible s !! id = Some d -> AgentData.agentId d = id /\ well_formed is_uri d).

(** A registration without any key. *)
Definition empty_body : Body.t := Body.mk None None None None None None None None None.

(** A request during which the cluster indexes documents but fails to
    refresh. *)
Definition refresh_down_env : Env :=
  {| now_ms := now_ms registration_env;
     now_iso := now_iso registration_env;
     reachable := fun c => match c with indices_refresh => false | _ => true end;
     origin := origin sample_env;
     text_score := text_score sample_env;
     distance_km := distance_km sample_env;
     aggregate := aggregate sample_env;
     cluster := cluster sample_env |}.

(** A request during which the cluster does not answer at all. *)
Definition cluster_down_env : Env :=
  {| now_ms := now_ms registration_env;
     now_iso := now_iso registration_env;
     reachable := fun _ => false;
     origin := origin sample_env;
     text_score := text_score sample_env;
     distance_km := distance_km sample_env;
     aggregate := aggregate sample_env;
     cluster := cluster sample_env |}.

(** The same request without its [city] and [country] parameters. *)
Definition without_place (rq : Query.t) : Query.t :=
  Query.mk (Query.q rq) (Query.tags rq) (Query.status rq) (Query.version rq) None None
    (Query.lat rq) (Query.lon rq) (Query.page rq) (Query.perPage rq) (Query.sort rq).

(** The same request with another [sort] parameter. *)
Definition with_sort (sort : option string) (rq : Query.t) : Query.t :=
  Query.mk (Query.q rq) (Query.tags rq) (Query.status rq) (Query.version rq) (Query.city rq)
    (Query.country rq) (Query.lat rq) (Query.lon rq) (Query.page rq) (Query.perPage rq) sort.

(** [lat && lon] on the validated value. *)
Definition geo_requested (v : Search.t) : bool :=
  match Search.lat v, Search.lon v with
  | Some lat, Some lon => JS.truthy_number lat && JS.truthy_number lon
  | _, _ => false
  end.

(** [!!q] on the validated value. *)
Definition has_text (v : Search.t) : bool := JS.truthy_opt JS.truthy_string (Search.q v).

(** [GET /search?q=weather&city=Paris&country=France&sort=distance]. *)
Definition paris_request : Query.t :=
  Query.mk (Some "weather") None None None (Some "Paris") (Some "France") None None None None
    (Some "distance").

(** The number of occurrences of a character in a string. *)
Fixpoint count_char (c : ascii) (s : string) : nat :=
  match s with
  | EmptyString => 0
  | String a r => (if Ascii.eqb a c then 1 else 0) + count_char c r
  end.

(** [pieces.join(sep)] for a one-character separator. *)
Fixpoint join (sep : ascii) (pieces : list string) : string :=
  match pieces with
  | [] => EmptyString
  | [p] => p
  | p :: rest => p +:+ String sep (join sep rest)
  end.

(** Neither the first nor the last character is white space. *)
Definition trimmed (s : string) : Prop := JS.trim_start s = s /\ JS.trim_end s = s.

(** [GET /search?tags=finance, stocks]. *)
Definition finance_value : Search.t :=
  Search.mk None (Some "finance, stocks") None None None None None None 1 20 relevance.

(** Card requests served one after the other, each in its own
    environment. *)
Definition serve_cards (requests : list (string * Env)) (s : State) : State :=
  fold_left (fun st r => snd (handle (getCard (fst r)) (snd r) st)) requests s.

(** The number of lookups counted so far. *)
Definition lookups (s : State) : nat :=
  (CacheStats.hits (cacheStats s) + CacheStats.misses (cacheStats s))%nat.

(** A request made six minutes after [sample_env], when a card fetched
    then has expired. *)
Definition after_ttl_env : Env :=
  {| now_ms := now_ms sample_env + 360000;
     now_iso := "2024-01-01T00:07:00.000Z";
     reachable := reachable sample_env;
     origin := origin sample_env;
     text_score := text_score sample_env;
     distance_km := distance_km sample_env;
     aggregate := aggregate sample_env;
     cluster := cluster sample_env |}.

(** A request during which the agent serves a card that claims another
    identity and to be cached. *)
Definition spoofing_env : Env :=
  {| now_ms := now_ms sample_env;
     now_iso := now_iso sample_env;
     reachable := reachable sample_env;
     origin := fun _ => Some (JObject (<["agentId" := JString "someone-else"]>
                                       (<["cached" := JBool true]>
                                          {[ "name" := JString "Weather Assistant" ]})));
     text_score := text_score sample_env;
     distance_km := distance_km sample_env;
     aggregate := aggregate sample_env;
     cluster := cluster sample_env |}.

(** A state in which the card of the weather agent and the card of
    another agent are cached. *)
Definition two_cards_cached : State :=
  {| live := live weather_registered;
     visible := visible weather_registered;
     agentCache := <[cacheKey "translation-agent-002"
                     := Wrapped.mk 1704067500000 {[ "name" := JString "Translator" ]}]>
                     {[ cacheKey "weather-agent-001"
                        := Wrapped.mk 1704067500000 {[ "name" := JString "Weather Assistant" ]} ]};
     cacheStats := CacheStats.mk 0 2 0;
     outbound := outbound weather_registered |}.

(** The hit the index returns for a matching document and its score. *)
Definition hit_of (env : Env) (body : SearchBody) (ds : AgentData.t * Q) : Hit :=
  {| _source := fst ds;
     _score := match sortClause body with
               | [] => Some (snd ds)
               | _ => None
               end;
     sort := sort_values env (sortClause body) (fst ds) |}.

(** The matching documents of the requested page, in order. *)
Definition page_of (env : Env) (body : SearchBody) (docs : gmap string AgentData.t)
  : list (AgentData.t * Q) :=
  take (Z.to_nat (size_ body))
    (drop (Z.to_nat (from body)) (sort_by (before env body) (matching env (query body) docs))).

(** [GET /search?lat=40.7128&lon=-74.006&sort=distance]. *)
Definition new_york_request : Query.t :=
  Query.mk None None None None None None (Some (Joi.number 40.7128%Q))
    (Some (Joi.number (-74.006)%Q)) None None
    (Some "distance").

(** The body of the query sent by [GET /agents]. *)
Definition list_body (page perPage : option Z) : SearchBody :=
  {| query := match_all;
     sortClause := [field_sort "updatedAt" desc];
     from := JS.times (JS.minus (parseInt_or page 1) 1) (parseInt_or perPage 20);
     size_ := parseInt_or perPage 20;
     aggs := [] |}.

(** ** The index definition created at start-up *)

Inductive FieldType : Type := keyword | text | geo_point | date | object_.

(** One entry of [mappings.properties]: its type, its analyzer, its
    multi-fields ([fields]) and its sub-properties ([properties]). *)
Module Mapping.
Record t : Type := mk {
  type_ : FieldType;
  analyzer : option string;
  fields : list (string * FieldType);
  properties : list (string * FieldType)
}.
End Mapping.

Record IndexBody : Type := {
  mappings : list (string * Mapping.t);
  analysis_analyzers : list (string * string)
}.

(** The [body] passed to [client.indices.create] by [initializeIndex]. *)
Definition agents_index_body : IndexBody :=
  {| mappings :=
       [("agentId", Mapping.mk keyword None [] []);
        ("name", Mapping.mk text (Some "standard") [("keyword", keyword)] []);
        ("description", Mapping.mk text (Some "standard") [] []);
        ("url", Mapping.mk keyword None [] []);
        ("tags", Mapping.mk keyword None [] []);
        ("status", Mapping.mk keyword None [] []);
        ("version", Mapping.mk keyword None [] []);
        ("capabilities", Mapping.mk text (Some "standard") [] []);
        ("location", Mapping.mk object_ None []
                       [("coordinates", geo_point); ("city", keyword); ("country", keyword)]);
        ("updatedAt", Mapping.mk date None [] [])];
     analysis_analyzers := [("standard", "standard")] |}.

(** What [initializeIndex] writes to the console. *)
Inductive ConsoleLine : Type :=
| created_index (name : string)          (* Created index: name *)
| error_initializing.                    (* Error initializing Elasticsearch index: ... *)

(** [initializeIndex()], on the indices of the cluster: [exists_answers]
    and [create_answers] tell whether the two requests succeed; any failure
    is caught and logged. *)
Definition initializeIndex (exists_answers create_answers : bool)
  (indices : gmap string IndexBody) : gmap string IndexBody * list ConsoleLine :=
  if exists_answers then
    match indices !! INDEX_NAME with
    | Some _ => (indices, [])
    | None =>
        if create_answers
        then (<[INDEX_NAME := agents_index_body]> indices, [created_index INDEX_NAME])
        else (indices, [error_initializing])
    end
  else (indices, [error_initializing]).

Fixpoint assoc {A} (key : string) (l : list (string * A)) : option A :=
  match l with
  | [] => None
  | (k, a) :: rest => if String.eqb k key then Some a else assoc key rest
  end.

(** The type a field path has under the mappings: a top-level property, or
    a sub-property or multi-field of one. *)
Definition field_type (body : IndexBody) (path : string) : option FieldType :=
  match JS.split "." path with
  | [f] => option_map Mapping.type_ (assoc f (mappings body))
  | [f; sub] =>
      match assoc f (mappings body) with
      | Some m =>
          match assoc sub (Mapping.properties m) with
          | Some ty => Some ty
          | None => assoc sub (Mapping.fields m)
          end
      | None => None
      end
  | _ => None
  end.

(** A field of a [multi_match], without its boost. *)
Definition unboosted (field : string) : string :=
  match JS.split "^" field with
  | f :: _ => f
  | [] => field
  end.

Definition must_fits (body : IndexBody) (m : MustClause) : bool :=
  match m with
  | multi_match _ fields _ _ =>
      forallb (fun f => match field_type body (unboosted f) with
                        | Some text => true
                        | _ => false
                        end) fields
  end.

Definition filter_fits (body : IndexBody) (f : FilterClause) : bool :=
  match f with
  | terms field _ | term field _ =>
      match field_type body field with
      | Some keyword => true
      | _ => false
      end
  end.

Definition sort_fits (body : IndexBody) (c : SortClause) : bool :=
  match c with
  | _geo_distance field _ _ _ _ =>
      match field_type body field with
      | Some geo_point => true
      | _ => false
      end
  | field_sort field _ =>
      match field_type body field with
      | Some keyword | Some date => true
      | _ => false
      end
  end.

Definition agg_fits (body : IndexBody) (a : Aggregation) : bool :=
  match a with
  | terms_agg _ field =>
      match field_type body field with
      | Some keyword => true
      | _ => false
      end
  end.

(** Every field a query refers to is mapped with a type that supports the
    use made of it. *)
Definition query_fits (body : IndexBody) (q : SearchBody) : bool :=
  forallb (must_fits body) (must_of (query q))
  && forallb (filter_fits body) (filter_of (query q))
  && forallb (sort_fits body) (sortClause q)
  && forallb (agg_fits body) (aggs q).

(** A coordinate object the schema refuses: a key is missing or a number
    is out of range. *)
Definition bad_coordinates (c : Body.coords) : Prop :=
  match Body.lat c, Body.lon c with
  | Some lat, Some lon =>
      ~ ((-90 <= lat)%Q /\ (lat <= 90)%Q /\ (-180 <= lon)%Q /\ (lon <= 180)%Q)
  | _, _ => True
  end.

(** Registrations with a defect the schema refuses, whatever their other
    keys hold. *)
Definition flawed (b : Body.t) : Prop :=
  Body.agentId b = None \/ Body.agentId b = Some ""
  \/ Body.name b = None \/ Body.name b = Some ""
  \/ Body.description b = None \/ Body.description b = Some ""
  \/ Body.url b = None \/ Body.url b = Some ""
  \/ (exists tags : list string, Body.tags b = Some tags /\ In "" tags)
  \/ (exists st : string, Body.status b = Some st /\ ~ In st status_values)
  \/ Body.version b = Some ""
  \/ Body.capabilities b = Some ""
  \/ (exists l : Body.loc,
        Body.location b = Some l
        /\ match Body.coordinates l with
           | Some c => bad_coordinates c
           | None => True
           end).

(** The weather agent as the examples of the repository submit it: its
    position directly under [location], which the schema reads as a
    location without [coordinates]. *)
Definition weather_body_as_documented : Body.t :=
  Body.mk (Some "weather-agent-001") (Some "Weather Assistant")
    (Some "Provides real-time weather information and forecasts for any location")
    (Some "http://localhost:3001") (Some ["weather"; "forecast"; "location"])
    (Some "active") (Some "1.2.0")
    (Some "Weather queries, location-based forecasts, historical data")
    (Some (Body.mk_loc None None None)).

(** The validated integer of a query parameter: the default when the
    parameter is missing, otherwise the number its text converts to. *)
Definition integer_of (d : Z) (o : option Joi.converted) (n : Z) : Prop :=
  match o with
  | None => n = d
  | Some c => exists x : Q, c = Joi.number x /\ (x == inject_Z n)%Q
  end.

(** Every document of the map is stored under its own [agentId], as
    [client.index({ id: agentData.agentId, document: agentData })] stores it. *)
Definition keyed_by_agentId (docs : gmap string AgentData.t) : Prop :=
  forall (k : string) (d : AgentData.t), docs !! k = Some d -> AgentData.agentId d = k.

(** The documents of the map whose [agentId] field is the id. *)
Definition records_of (id : string) (docs : gmap string AgentData.t) : list AgentData.t :=
  filter (fun d => AgentData.agentId d = id) (map snd (map_to_list docs)).

(** * Properties *)

(** ** Query construction *)

Example split_example : JS.split "," "finance, stocks" = ["finance"; " stocks"].
Proof. reflexivity. Qed.

Example trim_example : map JS.trim (JS.split "," "finance, stocks ,") = ["finance"; "stocks"; ""].
Proof. reflexivity. Qed.

(** With both coordinates non-zero the distance clause comes first,
    whatever the requested sort. *)
Lemma compile_geo_first (v : Search.t) (lat lon : Q) :
  Search.lat v = Some lat -> Search.lon v = Some lon ->
  JS.truthy_number lat = true -> JS.truthy_number lon = true ->
  head (sortClause (compile v)) = Some (_geo_distance "location.coordinates" lat lon asc "km").
Proof.
  intros Hlat Hlon Tlat Tlon. unfold compile. cbn [sortClause].
  rewrite Hlat, Hlon, Tlat, Tlon. cbn [andb push app].
  destruct (Search.sort v); try reflexivity;
    destruct (negb _); reflexivity.
Qed.

(** A coordinate equal to zero is falsy, and the distance clause is not
    emitted at all. *)
Lemma compile_zero_coordinate_no_geo (v : Search.t) (lat lon : Q) :
  Search.lat v = Some lat -> Search.lon v = Some lon ->
  JS.truthy_number lat && JS.truthy_number lon = false ->
  existsb is_geo_clause (sortClause (compile v)) = false.
Proof.
  intros Hlat Hlon Hz. unfold compile. cbn [sortClause].
  rewrite Hlat, Hlon, Hz.
  destruct (Search.sort v); try reflexivity;
    destruct (negb _); reflexivity.
Qed.

(** C1, at the failing input: the request [lat=0, lon=-74.006,
    sort=distance] passes the schema with both coordinates supplied, yet the
    compiled query holds no distance clause and its first sort clause is
    [updatedAt] descending. *)
Theorem geo_sort_lost_on_the_equator :
  exists v : Search.t,
    searchQuerySchema equator_request = inr v
    /\ Search.lat v = Some 0%Q
    /\ Search.lon v = Some (-74.006)%Q
    /\ sortClause (compile v) = [field_sort "updatedAt" desc]
    /\ existsb is_geo_clause (sortClause (compile v)) = false.
Proof.
  eexists. split; [reflexivity |]. repeat split; reflexivity.
Qed.

(** ** Empty text *)

(** C4, counterexample: the request with an empty text and a status filter
    is refused by the schema, and the handler answers 400 without compiling
    or running any query. *)
Lemma empty_text_is_invalid_input :
  searchQuerySchema empty_text_request = inl (StringEmpty "q")
  /\ handle (search empty_text_request) sample_env weather_registered
     = ({| status := 400; body := validation_error (StringEmpty "q") |}, weather_registered).
Proof. split; reflexivity. Qed.

Lemma schema_rejects_empty_text (rq : Query.t) :
  Query.q rq = Some "" -> searchQuerySchema rq = inl (StringEmpty "q").
Proof. intros H. unfold searchQuerySchema. rewrite H. reflexivity. Qed.

(** The query builder itself reads an empty text as no text. *)
Lemma compile_empty_text (v : Search.t) :
  compile (with_q (Some "") v) = compile (with_q None v).
Proof. reflexivity. Qed.

Lemma compile_no_text_no_must (v : Search.t) :
  must_of (query (compile (with_q None v))) = [].
Proof. reflexivity. Qed.

(** C4, amended: a search request whose text is the empty string is
    rejected as invalid input (400, ["q" is not allowed to be empty]) and
    leaves the state untouched; a query compiled without text has no must
    clause and the same filters, and the builder treats an empty text
    exactly like an absent one. *)
Theorem empty_text_rejected_absent_text_unconstrained
  (rq : Query.t) (env : Env) (s : State) (v : Search.t) :
  Query.q rq = Some "" ->
  handle (search rq) env s
  = ({| status := 400; body := validation_error (StringEmpty "q") |}, s)
  /\ must_of (query (compile (with_q None v))) = []
  /\ filter_of (query (compile (with_q None v))) = filter_of (query (compile v))
  /\ compile (with_q (Some "") v) = compile (with_q None v).
Proof.
  intros H. split; [| repeat split].
  unfold handle, search, try_catch. rewrite (schema_rejects_empty_text rq H). reflexivity.
Qed.

Lemma empty_text_rejected_absent_text_unconstrained_witness :
  handle (search empty_text_request) sample_env initial
  = ({| status := 400; body := validation_error (StringEmpty "q") |}, initial)
  /\ must_of (query (compile (with_q None (Search.mk None None (Some "active") None None None None None 1 20 relevance)))) = []
  /\ filter_of (query (compile (with_q None (Search.mk None None (Some "active") None None None None None 1 20 relevance))))
     = filter_of (query (compile (Search.mk None None (Some "active") None None None None None 1 20 relevance)))
  /\ compile (with_q (Some "") (Search.mk None None (Some "active") None None None None None 1 20 relevance))
     = compile (with_q None (Search.mk None None (Some "active") None None None None None 1 20 relevance)).
Proof.
  apply (empty_text_rejected_absent_text_unconstrained empty_text_request sample_env initial).
  reflexivity.
Defined.

(** ** Response shaping *)

(** Whatever the first sort clause is, its value is what a hit reports as
    [distance]. *)
Lemma shape_hit_distance (env : Env) (clauses : list SortClause) (d : AgentData.t) (sc : option Q) :
  distance (shape_hit {| _source := d; _score := sc; sort := sort_values env clauses d |})
  = head (map (sort_value env d) clauses).
Proof. destruct clauses; reflexivity. Qed.

(** Without any sort clause a hit carries no [distance]. *)
Lemma shape_hit_unsorted (env : Env) (d : AgentData.t) (sc : option Q) :
  distance (shape_hit {| _source := d; _score := sc; sort := sort_values env [] d |}) = None.
Proof. reflexivity. Qed.

(** C3, at the failing input: [GET /search?sort=name], with neither [lat]
    nor [lon], compiles to the single sort clause [name.keyword] ascending;
    every hit of such a query, whatever the engine and the document, is
    shaped with a [distance] field holding the document's name, and on the
    sample corpus the handler answers with [distance] set to the text
    [Weather Assistant]. *)
Theorem distance_present_when_sorted_by_name :
  exists v : Search.t,
    searchQuerySchema by_name_request = inr v
    /\ Search.lat v = None /\ Search.lon v = None
    /\ sortClause (compile v) = [field_sort "name.keyword" asc]
    /\ (forall (env : Env) (d : AgentData.t) (sc : option Q),
          distance (shape_hit {| _source := d; _score := sc;
                                 sort := sort_values env (sortClause (compile v)) d |})
          = Some (sv_keyword (AgentData.name d)))
    /\ fst (handle (search by_name_request) sample_env weather_registered)
       = {| status := 200;
            body := search_body
                      [{| found_source := weather_agent;
                          score := None;
                          distance := Some (sv_keyword "Weather Assistant") |}]
                      {| pg_page := 1; pg_perPage := 20; pg_total := 1; pg_totalPages := 1 |}
                      [] |}.
Proof.
  eexists. split; [reflexivity |].
  split; [reflexivity |]. split; [reflexivity |]. split; [reflexivity |].
  split; [intros env d sc; reflexivity | vm_compute; reflexivity].
Qed.

(** ** Cache statistics *)





(** [GET /health] reports the same expression. *)
Lemma health_hitRate (env : Env) (s : State) :
  reachable env cluster_health = true ->
  exists size : Z,
    fst (handle health env s)
    = {| status := 200;
         body := healthy (now_iso env) (cluster env) size (CacheStats.hits (cacheStats s))
                   (CacheStats.misses (cacheStats s)) (hitRate (cacheStats s)) |}.
Proof.
  intros H. eexists. unfold handle, health, try_catch, bind, call_cluster, bind, modify, ask.
  cbn. rewrite H. reflexivity.
Qed.

(** ** Running the card handler *)

Lemma agentCache_get_run (key : string) (env : Env) (s : State) :
  agentCache_get key env s
  = (inr (live_entry (now_ms env) (agentCache s) key), purge (now_ms env) key s).
Proof.
  unfold agentCache_get, live_entry, purge, bind, ask, get_state.
  destruct (agentCache s !! key) as [w |]; [| reflexivity].
  destruct (expired (now_ms env) w); reflexivity.
Qed.

(** A request that misses the cache, case by case. *)
Lemma getCard_miss_run (agentId : string) (env : Env) (s : State) :
  live_entry (now_ms env) (agentCache s) (cacheKey agentId) = None ->
  handle (getCard agentId) env s
  = let s1 := record_call (to_cluster (get_doc agentId))
                (bump_misses (purge (now_ms env) (cacheKey agentId) s)) in
    if reachable env (get_doc agentId) then
      match live s !! agentId with
      | Some d =>
          let s2 := record_call (http_get (card_url d)) s1 in
          match origin env (card_url d) with
          | Some data =>
              let card := fetched_card data agentId (now_iso env) in
              ({| status := 200; body := card_body card |},
               set_agentCache
                 <[cacheKey agentId := Wrapped.mk (now_ms env + stdTTL * 1000) card]> s2)
          | None =>
              ({| status := 503;
                  body := card_unavailable "Failed to fetch agent card" agentId
                            (AgentData.url d) |}, s2)
          end
      | None => ({| status := 404; body := error_body "Agent not found" |}, s1)
      end
    else ({| status := 500; body := error_body "Failed to fetch agent card" |}, s1).
Proof.
  intros Hmiss. unfold handle, getCard, try_catch. unfold bind at 1.
  rewrite agentCache_get_run, Hmiss.
  unfold bind, modify, client_get, call_cluster, bind, modify, ask, get_state, axios_get,
    bind, modify, ask, agentCache_set, json, ret, throw.
  cbn beta iota zeta.
  set (s0 := purge (now_ms env) (cacheKey agentId) s).
  assert (Hlive : live (record_call (to_cluster (get_doc agentId)) (bump_misses s0)) = live s).
  { unfold s0, purge. destruct (agentCache s !! cacheKey agentId) as [w |]; [| reflexivity].
    destruct (expired _ w); reflexivity. }
  destruct (reachable env (get_doc agentId)); [| reflexivity].
  rewrite Hlive. destruct (live s !! agentId) as [d |]; [| reflexivity].
  fold (card_url d). destruct (origin env (card_url d)); reflexivity.
Qed.

Lemma purge_frame (now : Z) (key : string) (s : State) :
  live (purge now key s) = live s
  /\ visible (purge now key s) = visible s
  /\ cacheStats (purge now key s) = cacheStats s
  /\ outbound (purge now key s) = outbound s.
Proof.
  unfold purge. destruct (agentCache s !! key) as [w |]; [| done].
  destruct (expired now w); done.
Qed.

Lemma purge_live_entry (now : Z) (key : string) (s : State) (card : gmap string jsval) :
  live_entry now (agentCache s) key = Some card -> purge now key s = s.
Proof.
  unfold live_entry, purge. destruct (agentCache s !! key) as [w |]; [| discriminate].
  destruct (expired now w); [discriminate | reflexivity].
Qed.

(** A request served from the cache. *)
Lemma getCard_hit_run (agentId : string) (env : Env) (s : State) (card : gmap string jsval) :
  live_entry (now_ms env) (agentCache s) (cacheKey agentId) = Some card ->
  handle (getCard agentId) env s
  = ({| status := 200; body := card_body (served_from_cache card) |}, bump_hits s).
Proof.
  intros Hhit. unfold handle, getCard, try_catch. unfold bind at 1.
  rewrite agentCache_get_run, Hhit, (purge_live_entry _ _ _ _ Hhit). reflexivity.
Qed.


Lemma live_entry_absent (now : Z) (cache : gmap string Wrapped.wrapped) (key : string) :
  cache !! key = None -> live_entry now cache key = None.
Proof. unfold live_entry. intros ->. reflexivity. Qed.



(** The served copy differs from the cached card in [cached] only. *)
Lemma served_from_cache_fetched (data : jsval) (agentId iso : string) :
  served_from_cache (fetched_card data agentId iso)
  = <["cached" := JBool true]> (fetched_card data agentId iso).
Proof.
  unfold served_from_cache, fetched_card.
  rewrite lookup_insert_eq. apply insert_id.
  rewrite lookup_insert_ne by discriminate. apply lookup_insert_eq.
Qed.

Lemma fetched_card_lookup (data : jsval) (agentId iso k : string) :
  fetched_card data agentId iso !! k
  = if decide (k = "fetchTimestamp") then Some (JString iso)
    else if decide (k = "cached") then Some (JBool false)
    else if decide (k = "agentId") then Some (JString agentId)
    else own_properties data !! k.
Proof.
  unfold fetched_card. repeat (rewrite lookup_insert; case_decide; subst).
  - rewrite decide_True by reflexivity. reflexivity.
  - rewrite decide_False by congruence. rewrite decide_True by reflexivity. reflexivity.
  - rewrite !decide_False by congruence. rewrite decide_True by reflexivity. reflexivity.
  - rewrite !decide_False by congruence. reflexivity.
Qed.

(** C7: for an agent of the index whose endpoint answers and whose card is
    not in the cache, the first card request answers with the fetched card:
    every property the endpoint sent, under [agentId] the id of the request,
    under [cached] false and under [fetchTimestamp] the time of the request;
    and it stores that card.  A second request made before the time to live
    has elapsed answers from the cache, without any outbound call, with
    [cached] true and every other property of the first answer unchanged. *)
Theorem second_card_request_is_served_from_cache
  (agentId : string) (env1 env2 : Env) (s : State) (d : AgentData.t) (data : jsval) :
  live s !! agentId = Some d ->
  live_entry (now_ms env1) (agentCache s) (cacheKey agentId) = None ->
  reachable env1 (get_doc agentId) = true ->
  origin env1 (card_url d) = Some data ->
  now_ms env2 <= now_ms env1 + stdTTL * 1000 ->
  exists card : gmap string jsval,
    fst (handle (getCard agentId) env1 s) = {| status := 200; body := card_body card |}
    /\ card !! "agentId" = Some (JString agentId)
    /\ card !! "cached" = Some (JBool false)
    /\ card !! "fetchTimestamp" = Some (JString (now_iso env1))
    /\ (forall k : string, k <> "agentId" -> k <> "cached" -> k <> "fetchTimestamp" ->
          card !! k = own_properties data !! k)
    /\ (forall m : gmap string jsval, data = JObject m ->
        forall k : string, k <> "agentId" -> k <> "cached" -> k <> "fetchTimestamp" ->
          card !! k = m !! k)
    /\ outbound (snd (handle (getCard agentId) env1 s))
       = (outbound s ++ [to_cluster (get_doc agentId); http_get (card_url d)])%list
    /\ agentCache (snd (handle (getCard agentId) env1 s)) !! cacheKey agentId
       = Some (Wrapped.mk (now_ms env1 + stdTTL * 1000) card)
    /\ fst (handle (getCard agentId) env2 (snd (handle (getCard agentId) env1 s)))
       = {| status := 200; body := card_body (<["cached" := JBool true]> card) |}
    /\ (<["cached" := JBool true]> card : gmap string jsval) !! "cached" = Some (JBool true)
    /\ (forall k : string, k <> "cached" ->
          (<["cached" := JBool true]> card : gmap string jsval) !! k = card !! k)
    /\ outbound (snd (handle (getCard agentId) env2 (snd (handle (getCard agentId) env1 s))))
       = outbound (snd (handle (getCard agentId) env1 s)).
Proof.
  intros Hdoc Hmiss Hup Hfetch Httl.
  rewrite (getCard_miss_run _ _ _ Hmiss). cbn zeta. rewrite Hup, Hdoc, Hfetch.
  cbn [fst snd].
  pose proof (purge_frame (now_ms env1) (cacheKey agentId) s) as (_ & _ & _ & Hout).
  set (card := fetched_card data agentId (now_iso env1)).
  set (s1 := set_agentCache _ _).
  assert (Hentry : agentCache s1 !! cacheKey agentId
                   = Some (Wrapped.mk (now_ms env1 + stdTTL * 1000) card)).
  { unfold s1. cbn. apply lookup_insert_eq. }
  assert (Hhit : live_entry (now_ms env2) (agentCache s1) (cacheKey agentId) = Some card).
  { unfold live_entry. rewrite Hentry. unfold expired. cbn [Wrapped.t Wrapped.v].
    replace (now_ms env1 + stdTTL * 1000 <? now_ms env2) with false
      by (symmetry; apply Z.ltb_ge; exact Httl).
    rewrite andb_false_r. reflexivity. }
  assert (Hother : forall k : string,
             k <> "agentId" -> k <> "cached" -> k <> "fetchTimestamp" ->
             card !! k = own_properties data !! k).
  { intros k H1 H2 H3. unfold card. rewrite fetched_card_lookup.
    rewrite !decide_False by assumption. reflexivity. }
  exists card. split; [reflexivity |].
  split; [unfold card; rewrite fetched_card_lookup; reflexivity |].
  split; [unfold card; rewrite fetched_card_lookup; reflexivity |].
  split; [unfold card; rewrite fetched_card_lookup; reflexivity |].
  split; [exact Hother |].
  split; [intros m ->; exact Hother |].
  split.
  { unfold s1. cbn [outbound set_agentCache record_call bump_misses set_cacheStats].
    rewrite Hout, <- app_assoc. reflexivity. }
  split; [exact Hentry |].
  split; [| split; [apply lookup_insert_eq | split]].
  - rewrite (getCard_hit_run _ _ _ _ Hhit). cbn [fst]. unfold card.
    rewrite served_from_cache_fetched. reflexivity.
  - intros k Hk. apply lookup_insert_ne. congruence.
  - rewrite (getCard_hit_run _ _ _ _ Hhit). reflexivity.
Qed.

Lemma second_card_request_is_served_from_cache_witness :
  exists card : gmap string jsval,
    fst (handle (getCard "weather-agent-001") sample_env weather_registered)
    = {| status := 200; body := card_body card |}
    /\ card !! "name" = Some (JString "Weather Assistant")
    /\ card !! "agentId" = Some (JString "weather-agent-001")
    /\ card !! "cached" = Some (JBool false)
    /\ fst (handle (getCard "weather-agent-001") later_env
              (snd (handle (getCard "weather-agent-001") sample_env weather_registered)))
       = {| status := 200; body := card_body (<["cached" := JBool true]> card) |}.
Proof.
  destruct (second_card_request_is_served_from_cache "weather-agent-001" sample_env later_env
              weather_registered weather_agent
              (JObject {[ "name" := JString "Weather Assistant" ]})
              eq_refl eq_refl eq_refl eq_refl ltac:(vm_compute; discriminate))
    as (card & H1 & Hid & Hcached & _ & _ & Hdata & _ & _ & H2 & _).
  exists card. split; [exact H1 |].
  split; [| split; [exact Hid | split; [exact Hcached | exact H2]]].
  rewrite (Hdata _ eq_refl "name") by discriminate. reflexivity.
Defined.

(** C9: a card request that is not served from the cache adds exactly one
    to [misses] and nothing to [hits], whether the agent is then found or
    not and whether the fetch then succeeds or not; in particular the
    answers 404 (no such agent) and 503 (fetch failed) are counted. *)
Theorem every_miss_is_counted (agentId : string) (env : Env) (s : State) :
  live_entry (now_ms env) (agentCache s) (cacheKey agentId) = None ->
  CacheStats.misses (cacheStats (snd (handle (getCard agentId) env s)))
  = S (CacheStats.misses (cacheStats s))
  /\ CacheStats.hits (cacheStats (snd (handle (getCard agentId) env s)))
     = CacheStats.hits (cacheStats s)
  /\ (reachable env (get_doc agentId) = true -> live s !! agentId = None ->
      status (fst (handle (getCard agentId) env s)) = 404)
  /\ (forall d : AgentData.t,
        reachable env (get_doc agentId) = true -> live s !! agentId = Some d ->
        origin env (card_url d) = None ->
        status (fst (handle (getCard agentId) env s)) = 503).
Proof.
  intros Hmiss. rewrite (getCard_miss_run _ _ _ Hmiss). cbn zeta.
  pose proof (purge_frame (now_ms env) (cacheKey agentId) s) as (_ & _ & Hstats & _).
  split; [| split; [| split]].
  - destruct (reachable env (get_doc agentId)); [| cbn; rewrite Hstats; reflexivity].
    destruct (live s !! agentId) as [d |]; [| cbn; rewrite Hstats; reflexivity].
    destruct (origin env (card_url d)); cbn; rewrite Hstats; reflexivity.
  - destruct (reachable env (get_doc agentId)); [| cbn; rewrite Hstats; reflexivity].
    destruct (live s !! agentId) as [d |]; [| cbn; rewrite Hstats; reflexivity].
    destruct (origin env (card_url d)); cbn; rewrite Hstats; reflexivity.
  - intros -> ->. reflexivity.
  - intros d -> -> ->. reflexivity.
Qed.

Lemma every_miss_is_counted_witness :
  CacheStats.misses
    (cacheStats (snd (handle (getCard "no-such-agent") sample_env weather_registered)))
  = 1%nat
  /\ status (fst (handle (getCard "no-such-agent") sample_env weather_registered)) = 404.
Proof.
  pose proof (every_miss_is_counted "no-such-agent" sample_env weather_registered eq_refl)
    as (H1 & _ & H2 & _).
  split; [exact H1 | exact (H2 eq_refl eq_refl)].
Defined.

(** ** Running the handlers that write to the index *)

Section RegistryFacts.

Variable is_uri : string -> bool.

Lemma register_run (b : Body.t) (env : Env) (s : State) :
  handle (register is_uri b) env s
  = match agentRegistrationSchema is_uri b with
    | inl e => ({| status := 400; body := validation_error e |}, s)
    | inr value =>
        let agentData := agentData_of value (now_iso env) in
        let id := AgentData.agentId agentData in
        let s1 := record_call (to_cluster (index_doc id)) s in
        if reachable env (index_doc id) then
          let s2 := record_call (to_cluster indices_refresh)
                      (set_agentCache (delete (cacheKey id)) (set_live <[id := agentData]> s1)) in
          if reachable env indices_refresh then
            ({| status := 201; body := registered "Agent registered successfully" id |},
             set_visible (live s2) s2)
          else ({| status := 500; body := error_body "Failed to register agent" |}, s2)
        else ({| status := 500; body := error_body "Failed to register agent" |}, s1)
    end.
Proof.
  unfold handle, register, try_catch.
  destruct (agentRegistrationSchema is_uri b) as [e | value]; [reflexivity |].
  unfold bind, ask, client_index, client_indices_refresh, call_cluster, agentCache_del,
    bind, modify, ask, get_state, json, ret, throw.
  cbn beta iota zeta.
  destruct (reachable env (index_doc _)); [| reflexivity].
  destruct (reachable env indices_refresh); reflexivity.
Qed.

(** A registration answered 201 passed the schema and reached the index
    twice; the state it leaves is determined by the validated value. *)
Lemma register_201 (b : Body.t) (env : Env) (s : State) :
  status (fst (handle (register is_uri b) env s)) = 201 ->
  exists value : Registration.t,
    agentRegistrationSchema is_uri b = inr value
    /\ let agentData := agentData_of value (now_iso env) in
       let id := Registration.agentId value in
       live (snd (handle (register is_uri b) env s)) = <[id := agentData]> (live s)
       /\ visible (snd (handle (register is_uri b) env s)) = <[id := agentData]> (live s)
       /\ agentCache (snd (handle (register is_uri b) env s))
          = delete (cacheKey id) (agentCache s)
       /\ cacheStats (snd (handle (register is_uri b) env s)) = cacheStats s
       /\ outbound (snd (handle (register is_uri b) env s))
          = (outbound s ++ [to_cluster (index_doc id); to_cluster indices_refresh])%list.
Proof.
  rewrite register_run.
  destruct (agentRegistrationSchema is_uri b) as [e | value]; [discriminate |].
  cbn zeta. change (AgentData.agentId (agentData_of value (now_iso env)))
    with (Registration.agentId value).
  destruct (reachable env (index_doc _)); [| discriminate].
  destruct (reachable env indices_refresh); [| discriminate].
  intros _. exists value. split; [reflexivity |]. cbn.
  rewrite <- app_assoc. done.
Qed.

End RegistryFacts.

Lemma deleteAgent_run (agentId : string) (env : Env) (s : State) :
  handle (deleteAgent agentId) env s
  = let s1 := record_call (to_cluster (delete_doc agentId)) s in
    if reachable env (delete_doc agentId) then
      match live s !! agentId with
      | Some _ =>
          ({| status := 200; body := message_body "Agent deleted successfully" |},
           set_agentCache (delete (cacheKey agentId)) (set_live (delete agentId) s1))
      | None => ({| status := 404; body := error_body "Agent not found" |}, s1)
      end
    else ({| status := 500; body := error_body "Failed to delete agent" |}, s1).
Proof.
  unfold handle, deleteAgent, try_catch, client_delete, call_cluster, agentCache_del,
    bind, modify, ask, get_state, json, ret, throw.
  cbn beta iota zeta.
  destruct (reachable env (delete_doc agentId)); [| reflexivity].
  cbn [live record_call]. destruct (live s !! agentId); reflexivity.
Qed.

Lemma getMetadata_run (agentId : string) (env : Env) (s : State) :
  handle (getMetadata agentId) env s
  = let s1 := record_call (to_cluster (get_doc agentId)) s in
    if reachable env (get_doc agentId) then
      match live s !! agentId with
      | Some d => ({| status := 200; body := metadata_body d |}, s1)
      | None => ({| status := 404; body := error_body "Agent not found" |}, s1)
      end
    else ({| status := 500; body := error_body "Failed to fetch agent" |}, s1).
Proof.
  unfold handle, getMetadata, try_catch, client_get, call_cluster,
    bind, modify, ask, get_state, json, ret, throw.
  cbn beta iota zeta.
  destruct (reachable env (get_doc agentId)); [| reflexivity].
  cbn [live record_call]. destruct (live s !! agentId); reflexivity.
Qed.

(** ** One document per id *)

Lemma filter_key_absent {A} (l : list (string * A)) (id : string) :
  id ∉ l.*1 -> filter (fun kv => fst kv = id) l = [].
Proof.
  induction l as [| [k x] l IH]; intros Hout; [reflexivity |].
  rewrite filter_cons. cbn in Hout. apply not_elem_of_cons in Hout as [Hne Hout].
  cbn [fst]. destruct (decide (k = id)) as [-> | _]; [contradiction | auto].
Qed.

Lemma filter_key_nodup {A} (l : list (string * A)) (id : string) :
  NoDup l.*1 -> id ∈ l.*1 -> length (filter (fun kv => fst kv = id) l) = 1%nat.
Proof.
  induction l as [| [k x] l IH]; intros Hnd Hin.
  - cbn in Hin. apply elem_of_nil in Hin. contradiction.
  - cbn in Hnd, Hin. apply NoDup_cons in Hnd as [Hk Hnd].
    rewrite filter_cons. cbn [fst]. destruct (decide (k = id)) as [-> | Hne].
    + rewrite (filter_key_absent l id Hk). reflexivity.
    + apply elem_of_cons in Hin as [-> | Hin]; [contradiction | auto].
Qed.

Lemma copies_present (id : string) (docs : gmap string AgentData.t) (d : AgentData.t) :
  docs !! id = Some d -> copies id docs = 1%nat.
Proof.
  intros H. unfold copies. apply filter_key_nodup.
  - apply NoDup_fst_map_to_list.
  - apply list_elem_of_fmap. exists (id, d). split; [reflexivity |].
    apply elem_of_map_to_list. exact H.
Qed.

(** ** What the registration schema lets through *)

Lemma string_inr (key s s' : string) : Joi.string_ key s = inr s' -> s' = s.
Proof. unfold Joi.string_. destruct (JS.truthy_string s); congruence. Qed.

Lemma string_valid_inr (key : string) (allowed : list string) (s s' : string) :
  Joi.string_valid key allowed s = inr s' -> s' = s.
Proof. unfold Joi.string_valid. destruct (existsb _ allowed); congruence. Qed.

Lemma number_range_inr (key : string) (lo hi x x' : Q) :
  Joi.number_range key lo hi x = inr x' -> x' = x.
Proof.
  unfold Joi.number_range.
  destruct (negb (Joi.safe x)); [discriminate |].
  destruct (negb (Qle_bool lo x)); [discriminate |].
  destruct (negb (Qle_bool x hi)); congruence.
Qed.

Lemma array_of_strings_inr (key : string) (items items' : list string) (i : nat) :
  array_of_strings key i items = inr items' -> items' = items.
Proof.
  revert i items'. induction items as [| x rest IH]; intros i items' H; cbn in H.
  - congruence.
  - destruct (Joi.string_ _ x) as [e | x'] eqn:Hx; [discriminate |]. cbn in H.
    destruct (array_of_strings key (S i) rest) as [e | rest'] eqn:Hr; [discriminate |].
    cbn in H. apply string_inr in Hx. apply IH in Hr. congruence.
Qed.

Lemma optional_inr {A} (rule : A -> Joi.result A) (o o' : option A) :
  (forall a a', rule a = inr a' -> a' = a) ->
  Joi.optional rule o = inr o' -> o' = o.
Proof.
  intros Hc. destruct o as [a |]; cbn; [| congruence].
  destruct (rule a) as [e | a'] eqn:E; cbn; [discriminate |].
  apply Hc in E. congruence.
Qed.

Lemma default_inr {A} (d : A) (rule : A -> Joi.result A) (o : option A) (a' : A) :
  (forall a a', rule a = inr a' -> a' = a) ->
  Joi.default d rule o = inr a' -> a' = default d o.
Proof.
  intros Hc. destruct o as [a |]; cbn; [apply Hc | congruence].
Qed.

Lemma required_inr {A} (key : string) (rule : A -> Joi.result A) (o : option A) (a' : A) :
  (forall a a', rule a = inr a' -> a' = a) ->
  Joi.required key rule o = inr a' -> o = Some a'.
Proof.
  intros Hc. destruct o as [a |]; cbn; [| discriminate].
  intros H. apply Hc in H. congruence.
Qed.

Section SchemaFacts.

Variable is_uri : string -> bool.

Lemma string_uri_inr (key s s' : string) : string_uri is_uri key s = inr s' -> s' = s.
Proof.
  unfold string_uri. destruct (Joi.string_ key s) as [e | s0] eqn:E; cbn; [discriminate |].
  apply string_inr in E. destruct (is_uri s0); congruence.
Qed.

Lemma location_schema_inr (l : Body.loc) (l' : Registration.loc) :
  location_schema l = inr l' ->
  exists lat lon : Q,
    Body.coordinates l = Some (Body.mk_coords (Some lat) (Some lon))
    /\ l' = Registration.mk_loc (Registration.mk_coords lat lon) (Body.city l) (Body.country l).
Proof.
  unfold location_schema. destruct l as [[[lat lon] |] city country]; cbn; [| discriminate].
  unfold coordinates_schema. cbn.
  destruct lat as [lat |]; cbn; [| discriminate].
  destruct (Joi.number_range _ _ _ lat) as [e | lat'] eqn:Hlat; cbn; [discriminate |].
  destruct lon as [lon |]; cbn; [| discriminate].
  destruct (Joi.number_range _ _ _ lon) as [e | lon'] eqn:Hlon; cbn; [discriminate |].
  destruct (Joi.optional _ city) as [e | city'] eqn:Hcity; cbn; [discriminate |].
  destruct (Joi.optional _ country) as [e | country'] eqn:Hcountry; cbn; [discriminate |].
  apply number_range_inr in Hlat, Hlon.
  apply optional_inr in Hcity, Hcountry; try (intros a a'; apply string_inr).
  intros H. exists lat, lon. split; congruence.
Qed.

(** The validated value holds the submitted fields as they were
    submitted, and the defaults of the schema for those left out. *)
Lemma agentRegistrationSchema_inr (b : Body.t) (value : Registration.t) :
  agentRegistrationSchema is_uri b = inr value ->
  Body.agentId b = Some (Registration.agentId value)
  /\ Body.name b = Some (Registration.name value)
  /\ Body.description b = Some (Registration.description value)
  /\ Body.url b = Some (Registration.url value)
  /\ Registration.tags value = default [] (Body.tags b)
  /\ Registration.status value = default "active" (Body.status b)
  /\ Registration.version value = default "1.0.0" (Body.version b)
  /\ Registration.capabilities value = default "" (Body.capabilities b)
  /\ match Body.location b with
     | None => Registration.location value = None
     | Some l =>
         exists lat lon : Q,
           Body.coordinates l = Some (Body.mk_coords (Some lat) (Some lon))
           /\ Registration.location value
              = Some (Registration.mk_loc (Registration.mk_coords lat lon)
                        (Body.city l) (Body.country l))
     end.
Proof.
  unfold agentRegistrationSchema. intros H.
  repeat match type of H with
         | Joi.bind ?c _ = inr _ =>
             let E := fresh "E" in
             destruct c eqn:E; cbn [Joi.bind] in H; [discriminate |]
         end.
  injection H as <-. cbn.
  apply required_inr in E, E0, E1, E2;
    try (intros a a'; first [apply string_inr | apply string_uri_inr]).
  apply default_inr in E3; [| intros a a'; apply array_of_strings_inr].
  apply default_inr in E4; [| intros a a'; apply string_valid_inr].
  apply default_inr in E5, E6; try (intros a a'; apply string_inr).
  repeat (split; [assumption |]).
  destruct (Body.location b) as [bl |]; cbn in E7.
  - destruct (location_schema bl) as [e | l'] eqn:Hl; cbn in E7; [discriminate |].
    apply location_schema_inr in Hl as (lat & lon & Hc & ->).
    exists lat, lon. split; congruence.
  - congruence.
Qed.

End SchemaFacts.

(** ** Registration *)

(** The sample state is the one the registration of the weather agent
    leaves, for any URI test accepting its address. *)
Lemma weather_registered_by_register (is_uri : string -> bool) :
  is_uri "http://localhost:3001" = true ->
  handle (register is_uri weather_body) registration_env initial
  = ({| status := 201;
        body := registered "Agent registered successfully" "weather-agent-001" |},
     weather_registered).
Proof.
  intros Huri. rewrite register_run.
  assert (Hv : agentRegistrationSchema is_uri weather_body
               = inr (Registration.mk "weather-agent-001" "Weather Assistant"
                        "Provides real-time weather information and forecasts for any location"
                        "http://localhost:3001" ["weather"; "forecast"; "location"] "active"
                        "1.2.0" "Weather queries, location-based forecasts, historical data"
                        (Some (Registration.mk_loc
                                 (Registration.mk_coords 40.7128%Q (-74.006)%Q) None None)))).
  { unfold agentRegistrationSchema, string_uri. cbn. rewrite Huri. reflexivity. }
  rewrite Hv. reflexivity.
Qed.

Lemma keyed_by_agentId_insert (docs : gmap string AgentData.t) (value : Registration.t)
  (iso : string) :
  keyed_by_agentId docs ->
  keyed_by_agentId (<[Registration.agentId value := agentData_of value iso]> docs).
Proof.
  intros H k d. rewrite lookup_insert. case_decide as Hk.
  - intros E. injection E as <-. exact Hk.
  - apply H.
Qed.

Lemma records_of_present (id : string) (docs : gmap string AgentData.t) (d : AgentData.t) :
  keyed_by_agentId docs -> docs !! id = Some d -> records_of id docs = [d].
Proof.
  intros Hk Hd. unfold records_of.
  assert (Hfilter : forall l : list (string * AgentData.t),
            (forall kv, kv ∈ l -> AgentData.agentId (snd kv) = fst kv) ->
            filter (fun d => AgentData.agentId d = id) (map snd l)
            = map snd (filter (fun kv => fst kv = id) l)).
  { induction l as [| kv l IH]; intros Hl; [reflexivity |].
    cbn [map]. rewrite !filter_cons.
    pose proof (Hl kv ltac:(left)) as Hkv.
    assert (IH' := IH (fun kv' H => Hl kv' ltac:(right; exact H))).
    destruct (decide (AgentData.agentId (snd kv) = id)) as [E1 | E1],
             (decide (fst kv = id)) as [E2 | E2]; cbn [map];
      solve [exfalso; congruence | rewrite IH'; reflexivity]. }
  rewrite Hfilter.
  2:{ intros [k x] Hin. apply elem_of_map_to_list in Hin. cbn. eapply Hk. exact Hin. }
  pose proof (copies_present id docs d Hd) as Hone. unfold copies in Hone.
  destruct (filter (fun kv => fst kv = id) (map_to_list docs)) as [| [k x] [| y rest]] eqn:E;
    [discriminate | | discriminate].
  assert (Hin : (k, x) ∈ filter (fun kv : string * AgentData.t => fst kv = id)
                          (map_to_list docs)) by (rewrite E; left).
  apply list_elem_of_filter in Hin as [Hfst Hin]. cbn in Hfst. subst k.
  apply elem_of_map_to_list in Hin. cbn. congruence.
Qed.

(** C5: when an agent id is registered twice, after the second
    registration the index holds exactly one document under the id, both
    for reads by id and for searches, and, the documents being stored under
    their own ids before (as they are in every state the routes reach from
    the empty index), exactly one document whose [agentId] is the id.
    Every field of that document is the one of the second request, or the
    schema's default when the second request leaves it out, with the
    coordinates as [[lon; lat]] and [updatedAt] the time of the second
    request: nothing of the first registration is kept, the second request
    stores this very document over any state.  The card cache has no entry
    for the id. *)
Theorem reregistration_replaces_the_record
  (is_uri : string -> bool) (b1 b2 : Body.t) (env1 env2 : Env) (s : State) (id : string) :
  Body.agentId b1 = Some id ->
  Body.agentId b2 = Some id ->
  status (fst (handle (register is_uri b1) env1 s)) = 201 ->
  status (fst (handle (register is_uri b2) env2 (snd (handle (register is_uri b1) env1 s)))) = 201 ->
  exists (value2 : Registration.t) (doc : AgentData.t),
    agentRegistrationSchema is_uri b2 = inr value2
    /\ Registration.agentId value2 = id
    /\ doc = agentData_of value2 (now_iso env2)
    /\ live (snd (handle (register is_uri b2) env2 (snd (handle (register is_uri b1) env1 s))))
         !! id = Some doc
    /\ visible (snd (handle (register is_uri b2) env2 (snd (handle (register is_uri b1) env1 s))))
         !! id = Some doc
    /\ copies id
         (live (snd (handle (register is_uri b2) env2 (snd (handle (register is_uri b1) env1 s)))))
       = 1%nat
    /\ copies id
         (visible (snd (handle (register is_uri b2) env2 (snd (handle (register is_uri b1) env1 s)))))
       = 1%nat
    /\ (keyed_by_agentId (live s) ->
        records_of id
          (live (snd (handle (register is_uri b2) env2
                        (snd (handle (register is_uri b1) env1 s))))) = [doc]
        /\ records_of id
             (visible (snd (handle (register is_uri b2) env2
                              (snd (handle (register is_uri b1) env1 s))))) = [doc])
    /\ Some (AgentData.agentId doc) = Body.agentId b2
    /\ Some (AgentData.name doc) = Body.name b2
    /\ Some (AgentData.description doc) = Body.description b2
    /\ Some (AgentData.url doc) = Body.url b2
    /\ AgentData.tags doc = default [] (Body.tags b2)
    /\ AgentData.status doc = default "active" (Body.status b2)
    /\ AgentData.version doc = default "1.0.0" (Body.version b2)
    /\ AgentData.capabilities doc = default "" (Body.capabilities b2)
    /\ match Body.location b2 with
       | None => AgentData.location doc = None
       | Some l =>
           exists lat lon : Q,
             Body.coordinates l = Some (Body.mk_coords (Some lat) (Some lon))
             /\ AgentData.location doc
                = Some (AgentData.mk_loc (AgentData.coords_array [lon; lat])
                          (Body.city l) (Body.country l))
       end
    /\ AgentData.updatedAt doc = now_iso env2
    /\ (forall s' : State,
          status (fst (handle (register is_uri b2) env2 s')) = 201 ->
          live (snd (handle (register is_uri b2) env2 s')) !! id = Some doc
          /\ visible (snd (handle (register is_uri b2) env2 s')) !! id = Some doc)
    /\ agentCache (snd (handle (register is_uri b2) env2 (snd (handle (register is_uri b1) env1 s))))
         !! cacheKey id = None.
Proof.
  intros _ Hid2 H1 H2.
  destruct (register_201 is_uri b1 env1 s H1) as (value1 & _ & Hlive1 & _).
  cbn zeta in Hlive1.
  set (s1 := snd (handle (register is_uri b1) env1 s)) in *.
  destruct (register_201 is_uri b2 env2 s1 H2) as (value2 & Hv & Hlive & Hvis & Hcache & _ & _).
  pose proof (agentRegistrationSchema_inr is_uri b2 value2 Hv)
    as (Hid & Hname & Hdesc & Hurl & Htags & Hstatus & Hversion & Hcap & Hloc).
  assert (Registration.agentId value2 = id) as Heq by congruence.
  assert (Hlook : (<[Registration.agentId value2 := agentData_of value2 (now_iso env2)]>
                     (live s1) : gmap string AgentData.t) !! id
                  = Some (agentData_of value2 (now_iso env2)))
    by (rewrite Heq; apply lookup_insert_eq).
  exists value2, (agentData_of value2 (now_iso env2)).
  split; [exact Hv |]. split; [exact Heq |]. split; [reflexivity |].
  rewrite Hlive, Hvis, Hcache.
  split; [exact Hlook |]. split; [exact Hlook |].
  split; [exact (copies_present _ _ _ Hlook) |].
  split; [exact (copies_present _ _ _ Hlook) |].
  split.
  { intros Hkeyed.
    assert (Hk2 : keyed_by_agentId
                    (<[Registration.agentId value2 := agentData_of value2 (now_iso env2)]>
                       (live s1))).
    { apply keyed_by_agentId_insert. rewrite Hlive1. apply keyed_by_agentId_insert.
      exact Hkeyed. }
    split; exact (records_of_present _ _ _ Hk2 Hlook). }
  unfold agentData_of at 1 2 3 4 5 6 7 8 9 10.
  cbn [AgentData.location AgentData.agentId AgentData.name AgentData.description
       AgentData.url AgentData.tags AgentData.status AgentData.version
       AgentData.capabilities AgentData.updatedAt].
  do 8 (split; [congruence |]).
  split.
  { destruct (Body.location b2) as [l |].
    - destruct Hloc as (lat & lon & Hc & ->). exists lat, lon. split; [exact Hc | reflexivity].
    - rewrite Hloc. reflexivity. }
  split; [reflexivity |].
  split; [| rewrite Heq; apply lookup_delete_eq].
  intros s' H'.
  destruct (register_201 is_uri b2 env2 s' H') as (value' & Hv' & Hlive' & Hvis' & _).
  assert (value' = value2) as -> by congruence.
  rewrite Hlive', Hvis', Heq. split; apply lookup_insert_eq.
Qed.

Lemma reregistration_replaces_the_record_witness :
  live (snd (handle (register is_sample_uri weather_update_body) sample_env
               (snd (handle (register is_sample_uri weather_body) registration_env initial))))
    !! "weather-agent-001"
  = Some (AgentData.mk "weather-agent-001" "Weather Assistant Pro" "Enhanced weather service"
            "http://localhost:3001" [] "active" "1.3.0" "" None "2024-01-01T00:01:00.000Z")
  /\ copies "weather-agent-001"
       (live (snd (handle (register is_sample_uri weather_update_body) sample_env
                     (snd (handle (register is_sample_uri weather_body) registration_env
                             initial)))))
     = 1%nat
  /\ records_of "weather-agent-001"
       (live (snd (handle (register is_sample_uri weather_update_body) sample_env
                     (snd (handle (register is_sample_uri weather_body) registration_env
                             initial)))))
     = [AgentData.mk "weather-agent-001" "Weather Assistant Pro" "Enhanced weather service"
          "http://localhost:3001" [] "active" "1.3.0" "" None "2024-01-01T00:01:00.000Z"].
Proof.
  destruct (reregistration_replaces_the_record is_sample_uri weather_body weather_update_body
              registration_env sample_env initial "weather-agent-001"
              eq_refl eq_refl eq_refl eq_refl)
    as (value2 & doc & Hv & _ & Hdoc & Hlive & _ & Hone & _ & Hrecords & _).
  assert (value2 = Registration.mk "weather-agent-001" "Weather Assistant Pro"
                     "Enhanced weather service" "http://localhost:3001" [] "active" "1.3.0" ""
                     None) as ->.
  { vm_compute in Hv. congruence. }
  assert (Hkeyed : keyed_by_agentId (live initial)).
  { intros k d H. cbn in H. rewrite lookup_empty in H. discriminate. }
  destruct (Hrecords Hkeyed) as [Hrec _].
  rewrite Hlive, Hrec, Hdoc. split; [reflexivity |]. split; [exact Hone | reflexivity].
Defined.

(** C10: after a successful registration whose [location.coordinates] is
    the object [{ lat, lon }], the document returned by the metadata
    request, and seen by list and search, holds [location.coordinates] as
    the array [[lon; lat]] and not as the submitted object; every other
    field is the submitted one, or the schema's default when left out, and
    [updatedAt] is the time of the request. *)
Theorem coordinates_are_stored_as_lon_lat_pair
  (is_uri : string -> bool) (b : Body.t) (env env' : Env) (s : State)
  (id : string) (l : Body.loc) (lat lon : Q) :
  Body.agentId b = Some id ->
  Body.location b = Some l ->
  Body.coordinates l = Some (Body.mk_coords (Some lat) (Some lon)) ->
  status (fst (handle (register is_uri b) env s)) = 201 ->
  reachable env' (get_doc id) = true ->
  exists doc : AgentData.t,
    fst (handle (getMetadata id) env' (snd (handle (register is_uri b) env s)))
    = {| status := 200; body := metadata_body doc |}
    /\ visible (snd (handle (register is_uri b) env s)) !! id = Some doc
    /\ AgentData.location doc
       = Some (AgentData.mk_loc (AgentData.coords_array [lon; lat]) (Body.city l) (Body.country l))
    /\ AgentData.coordinates <$> AgentData.location doc
       <> Some (AgentData.coords_object (Registration.mk_coords lat lon))
    /\ Some (AgentData.agentId doc) = Body.agentId b
    /\ Some (AgentData.name doc) = Body.name b
    /\ Some (AgentData.description doc) = Body.description b
    /\ Some (AgentData.url doc) = Body.url b
    /\ AgentData.tags doc = default [] (Body.tags b)
    /\ AgentData.status doc = default "active" (Body.status b)
    /\ AgentData.version doc = default "1.0.0" (Body.version b)
    /\ AgentData.capabilities doc = default "" (Body.capabilities b)
    /\ AgentData.updatedAt doc = now_iso env.
Proof.
  intros Hid Hloc Hcoords H201 Hup.
  destruct (register_201 is_uri b env s H201) as (value & Hv & Hlive & Hvis & _).
  pose proof (agentRegistrationSchema_inr is_uri b value Hv)
    as (Hid' & Hname & Hdesc & Hurl & Htags & Hstatus & Hversion & Hcap & Hl).
  rewrite Hloc in Hl. destruct Hl as (lat' & lon' & Hcoords' & Hvloc).
  assert (lat' = lat /\ lon' = lon) as [-> ->] by (split; congruence).
  assert (Registration.agentId value = id) as Heq by congruence.
  rewrite Heq in Hlive, Hvis.
  exists (agentData_of value (now_iso env)).
  rewrite getMetadata_run. cbn zeta. rewrite Hup, Hlive, Hvis, lookup_insert_eq.
  split; [reflexivity |]. split; [reflexivity |].
  unfold agentData_of. cbn [AgentData.location AgentData.agentId AgentData.name
    AgentData.description AgentData.url AgentData.tags AgentData.status AgentData.version
    AgentData.capabilities AgentData.updatedAt].
  rewrite Hvloc. cbn.
  repeat split; try congruence.
Qed.

Lemma coordinates_are_stored_as_lon_lat_pair_witness :
  exists doc : AgentData.t,
    fst (handle (getMetadata "weather-agent-001") sample_env
           (snd (handle (register is_sample_uri weather_body) registration_env initial)))
    = {| status := 200; body := metadata_body doc |}
    /\ AgentData.location doc
       = Some (AgentData.mk_loc (AgentData.coords_array [(-74.006)%Q; 40.7128%Q]) None None).
Proof.
  destruct (coordinates_are_stored_as_lon_lat_pair is_sample_uri weather_body registration_env
              sample_env initial "weather-agent-001"
              (Body.mk_loc (Some (Body.mk_coords (Some 40.7128%Q) (Some (-74.006)%Q))) None None)
              40.7128%Q (-74.006)%Q eq_refl eq_refl eq_refl eq_refl eq_refl)
    as (doc & Hget & _ & Hloc & _).
  exists doc. split; assumption.
Defined.

(** ** Visibility of writes *)

(** A registration answered 201 has refreshed the index: what searches
    see is what the index holds. *)
Lemma register_forces_visibility (is_uri : string -> bool) (b : Body.t) (env : Env) (s : State) :
  status (fst (handle (register is_uri b) env s)) = 201 ->
  visible (snd (handle (register is_uri b) env s)) = live (snd (handle (register is_uri b) env s))
  /\ last (outbound (snd (handle (register is_uri b) env s))) = Some (to_cluster indices_refresh).
Proof.
  intros H. destruct (register_201 is_uri b env s H) as (value & _ & Hlive & Hvis & _ & _ & Hout).
  rewrite Hlive, Hvis, Hout. split; [reflexivity |].
  rewrite last_app. reflexivity.
Qed.

(** A deletion answered 200 sends one request to the cluster, the delete
    itself, and leaves what searches see as it was. *)
Lemma deleteAgent_leaves_view (agentId : string) (env : Env) (s : State) :
  status (fst (handle (deleteAgent agentId) env s)) = 200 ->
  live (snd (handle (deleteAgent agentId) env s)) = delete agentId (live s)
  /\ visible (snd (handle (deleteAgent agentId) env s)) = visible s
  /\ outbound (snd (handle (deleteAgent agentId) env s))
     = (outbound s ++ [to_cluster (delete_doc agentId)])%list.
Proof.
  rewrite deleteAgent_run. cbn zeta.
  destruct (reachable env (delete_doc agentId)); [| discriminate].
  destruct (live s !! agentId); [| discriminate].
  intros _. done.
Qed.

(** C2, at the failing input: the weather agent is registered and visible;
    its deletion is answered 200 after a single request to the cluster, the
    delete, with no refresh; right afterwards the metadata request answers
    404, yet the list request and an unfiltered search still return the
    deleted agent, with a total of 1. *)
Theorem deleted_agent_is_still_listed :
  fst (handle (deleteAgent "weather-agent-001") sample_env weather_registered)
  = {| status := 200; body := message_body "Agent deleted successfully" |}
  /\ outbound (snd (handle (deleteAgent "weather-agent-001") sample_env weather_registered))
     = (outbound weather_registered ++ [to_cluster (delete_doc "weather-agent-001")])%list
  /\ fst (handle (getMetadata "weather-agent-001") sample_env
            (snd (handle (deleteAgent "weather-agent-001") sample_env weather_registered)))
     = {| status := 404; body := error_body "Agent not found" |}
  /\ fst (handle (listAgents None None) sample_env
            (snd (handle (deleteAgent "weather-agent-001") sample_env weather_registered)))
     = {| status := 200;
          body := agents_body [{| listed_source := weather_agent; listed_score := None |}]
                    {| pg_page := 1; pg_perPage := 20; pg_total := 1; pg_totalPages := 1 |} |}
  /\ fst (handle (search Query.empty) sample_env
            (snd (handle (deleteAgent "weather-agent-001") sample_env weather_registered)))
     = {| status := 200;
          body := search_body
                    [{| found_source := weather_agent; score := None;
                        distance := Some (sv_date "2024-01-01T00:00:00.000Z") |}]
                    {| pg_page := 1; pg_perPage := 20; pg_total := 1; pg_totalPages := 1 |}
                    [] |}.
Proof. repeat split; vm_compute; reflexivity. Qed.

(** Once the index has refreshed on its own, the deleted agent is gone
    from the list as well. *)
Lemma deleted_agent_gone_after_refresh :
  fst (handle (listAgents None None) sample_env
         (background_refresh
            (snd (handle (deleteAgent "weather-agent-001") sample_env weather_registered))))
  = {| status := 200;
       body := agents_body []
                 {| pg_page := 1; pg_perPage := 20; pg_total := 0; pg_totalPages := 0 |} |}.
Proof. vm_compute. reflexivity. Qed.

(** ** Expiry *)

(** Past its time to live an entry is a miss, dropped by the lookup or by
    the periodic sweep. *)
Lemma expired_entry_is_a_miss (now : Z) (cache : gmap string Wrapped.wrapped) (key : string)
  (w : Wrapped.wrapped) :
  cache !! key = Some w -> Wrapped.t w <> 0 -> Wrapped.t w < now ->
  live_entry now cache key = None.
Proof.
  intros Hw Hnz Hlt. unfold live_entry, expired. rewrite Hw.
  replace (Wrapped.t w =? 0) with false by (symmetry; apply Z.eqb_neq; exact Hnz).
  replace (Wrapped.t w <? now) with true by (symmetry; apply Z.ltb_lt; exact Hlt).
  reflexivity.
Qed.

Lemma check_data_drops_expired (now : Z) (s : State) (key : string) (w : Wrapped.wrapped) :
  agentCache s !! key = Some w -> expired now w = true ->
  agentCache (check_data now s) !! key = None.
Proof.
  intros Hw He. unfold check_data. cbn. apply map_lookup_filter_None. right.
  intros w' Hw'. cbn. assert (w' = w) as -> by congruence. rewrite He. discriminate.
Qed.

(** * Further properties of the handlers *)

(** ** Every route answers *)

Ltac answered := do 2 eexists; split; [reflexivity | cbn; tauto].

Lemma health_answers : answers health [200; 503].
Proof.
  intros env s. unfold health, try_catch, call_cluster, agentCache_getStats, bind, modify, ask,
    get_state, json, ret, throw. cbn beta iota zeta.
  destruct (reachable env cluster_health); answered.
Qed.

Lemma register_answers (is_uri : string -> bool) (b : Body.t) :
  answers (register is_uri b) [201; 400; 500].
Proof.
  intros env s. unfold register, try_catch.
  destruct (agentRegistrationSchema is_uri b) as [e | value]; [answered |].
  unfold bind, ask, client_index, client_indices_refresh, call_cluster, agentCache_del,
    bind, modify, ask, get_state, json, ret, throw. cbn beta iota zeta.
  destruct (reachable env (index_doc _)); [| answered].
  destruct (reachable env indices_refresh); answered.
Qed.

Lemma client_search_cases (body : SearchBody) (env : Env) (s : State) :
  (exists e : Exn, client_search body env s
                   = (inl e, record_call (to_cluster (search_docs body)) s))
  \/ (exists result : SearchResult,
        client_search body env s
        = (inr result, record_call (to_cluster (search_docs body)) s)).
Proof.
  unfold client_search, call_cluster, bind, modify, ask, get_state, ret, throw.
  cbn beta iota zeta.
  destruct (reachable env (search_docs body)); [| left; eexists; reflexivity].
  destruct (_ || _); [left | right]; eexists; reflexivity.
Qed.

Lemma listAgents_answers (page perPage : option Z) : answers (listAgents page perPage) [200; 500].
Proof.
  intros env s. unfold listAgents, try_catch. unfold bind at 1.
  destruct (client_search_cases
              {| query := match_all; sortClause := [field_sort "updatedAt" desc];
                 from := JS.times (JS.minus (parseInt_or page 1) 1) (parseInt_or perPage 20);
                 size_ := parseInt_or perPage 20; aggs := [] |} env s)
    as [[e ->] | [result ->]]; answered.
Qed.

Lemma getMetadata_answers (agentId : string) : answers (getMetadata agentId) [200; 404; 500].
Proof.
  intros env s. unfold getMetadata, try_catch, client_get, call_cluster,
    bind, modify, ask, get_state, json, ret, throw. cbn beta iota zeta.
  destruct (reachable env (get_doc agentId)); [| answered].
  destruct (live _ !! agentId); answered.
Qed.

Lemma deleteAgent_answers (agentId : string) : answers (deleteAgent agentId) [200; 404; 500].
Proof.
  intros env s. unfold deleteAgent, try_catch, client_delete, call_cluster, agentCache_del,
    bind, modify, ask, get_state, json, ret, throw. cbn beta iota zeta.
  destruct (reachable env (delete_doc agentId)); [| answered].
  destruct (live _ !! agentId); answered.
Qed.

Lemma search_answers (rq : Query.t) : answers (search rq) [200; 400; 500].
Proof.
  intros env s. unfold search, try_catch.
  destruct (searchQuerySchema rq) as [e | value]; [answered |].
  unfold bind at 1.
  destruct (client_search_cases (compile value) env s) as [[e ->] | [result ->]]; answered.
Qed.

Lemma getCard_answers (agentId : string) : answers (getCard agentId) [200; 404; 500; 503].
Proof.
  intros env s. unfold getCard, try_catch. unfold bind at 1.
  rewrite agentCache_get_run.
  destruct (live_entry _ _ _) as [card |]; [answered |].
  unfold bind, modify, client_get, call_cluster, bind, modify, ask, get_state, axios_get,
    bind, modify, ask, agentCache_set, json, ret, throw. cbn beta iota zeta.
  destruct (reachable env (get_doc agentId)); [| answered].
  destruct (live _ !! agentId) as [d |]; [| answered].
  destruct (origin env _); answered.
Qed.

Lemma cache_routes_answer : answers cacheStatus [200] /\ answers cacheClear [200].
Proof. split; intros env s; answered. Qed.

(** X1: every route of the server answers each request itself, with one
    of its own status codes; no exception reaches the error middleware,
    whatever the cluster, the agent's endpoint and the state do. *)
Theorem every_route_answers (is_uri : string -> bool) (b : Body.t) (rq : Query.t)
  (agentId : string) (page perPage : option Z) :
  answers health [200; 503]
  /\ answers (register is_uri b) [201; 400; 500]
  /\ answers (listAgents page perPage) [200; 500]
  /\ answers (getMetadata agentId) [200; 404; 500]
  /\ answers (deleteAgent agentId) [200; 404; 500]
  /\ answers (search rq) [200; 400; 500]
  /\ answers (getCard agentId) [200; 404; 500; 503]
  /\ answers cacheStatus [200]
  /\ answers cacheClear [200].
Proof.
  pose proof cache_routes_answer as [Hs Hc].
  repeat split;
    auto using health_answers, register_answers, listAgents_answers, getMetadata_answers,
      deleteAgent_answers, search_answers, getCard_answers.
Qed.

(** ** Routes that only read *)

Lemma listAgents_state (page perPage : option Z) (env : Env) (s : State) :
  exists c : Call, snd (handle (listAgents page perPage) env s) = record_call c s.
Proof.
  unfold handle, listAgents, try_catch. unfold bind at 1.
  destruct (client_search_cases
              {| query := match_all; sortClause := [field_sort "updatedAt" desc];
                 from := JS.times (JS.minus (parseInt_or page 1) 1) (parseInt_or perPage 20);
                 size_ := parseInt_or perPage 20; aggs := [] |} env s)
    as [[e ->] | [result ->]]; eexists; reflexivity.
Qed.

Lemma search_state (rq : Query.t) (env : Env) (s : State) :
  snd (handle (search rq) env s)
  = match searchQuerySchema rq with
    | inl _ => s
    | inr value => record_call (to_cluster (search_docs (compile value))) s
    end.
Proof.
  unfold handle, search, try_catch.
  destruct (searchQuerySchema rq) as [e | value]; [reflexivity |].
  unfold bind at 1.
  destruct (client_search_cases (compile value) env s) as [[e ->] | [result ->]]; reflexivity.
Qed.

Lemma same_data_record_call (c : Call) (s : State) : same_data s (record_call c s).
Proof. repeat split. Qed.

Lemma reading_routes_facts (rq : Query.t) (agentId : string)
  (page perPage : option Z) (env : Env) (s : State) :
  same_data s (snd (handle (getMetadata agentId) env s))
  /\ same_data s (snd (handle (listAgents page perPage) env s))
  /\ same_data s (snd (handle (search rq) env s))
  /\ same_data s (snd (handle cacheStatus env s))
  /\ same_data s (snd (handle health env s)).
Proof.
  split; [| split; [| split; [| split]]].
  - rewrite getMetadata_run. cbn zeta.
    destruct (reachable env (get_doc agentId)); [| apply same_data_record_call].
    destruct (live s !! agentId); apply same_data_record_call.
  - destruct (listAgents_state page perPage env s) as [c ->]. apply same_data_record_call.
  - rewrite search_state. destruct (searchQuerySchema rq); [| apply same_data_record_call].
    repeat split.
  - repeat split.
  - unfold handle, health, try_catch, call_cluster, agentCache_getStats, bind, modify, ask,
      get_state, json, ret, throw. cbn beta iota zeta.
    destruct (reachable env cluster_health); apply same_data_record_call.
Qed.

(** X2: the metadata, list, search, cache-status and health routes only
    read: whatever they answer, the index (documents and searchable view),
    the card cache and the hit and miss counters are left exactly as they
    were found. *)
Theorem reading_routes_change_nothing (rq : Query.t) (agentId : string)
  (page perPage : option Z) (env : Env) (s : State) :
  same_data s (snd (handle (getMetadata agentId) env s))
  /\ same_data s (snd (handle (listAgents page perPage) env s))
  /\ same_data s (snd (handle (search rq) env s))
  /\ same_data s (snd (handle cacheStatus env s))
  /\ same_data s (snd (handle health env s)).
Proof. apply reading_routes_facts. Qed.

(** ** What validation guarantees *)

Lemma string_nonempty (key s s' : string) : Joi.string_ key s = inr s' -> s' <> "".
Proof.
  unfold Joi.string_. destruct s; cbn; [discriminate |]. intros H. injection H as <-. discriminate.
Qed.

Lemma string_valid_in (key : string) (allowed : list string) (s s' : string) :
  Joi.string_valid key allowed s = inr s' -> In s' allowed.
Proof.
  unfold Joi.string_valid. destruct (existsb _ allowed) eqn:E; [| discriminate].
  intros H. injection H as <-. apply existsb_exists in E as (x & Hin & Hx).
  apply String.eqb_eq in Hx. subst. exact Hin.
Qed.

Lemma number_range_bounds (key : string) (lo hi x x' : Q) :
  Joi.number_range key lo hi x = inr x' -> (lo <= x')%Q /\ (x' <= hi)%Q.
Proof.
  unfold Joi.number_range.
  destruct (negb (Joi.safe x)); [discriminate |].
  destruct (Qle_bool lo x) eqn:Hlo; cbn; [| discriminate].
  destruct (Qle_bool x hi) eqn:Hhi; cbn; [| discriminate].
  intros H. injection H as <-. split; apply Qle_bool_iff; assumption.
Qed.

Lemma integer_range_bounds (key : string) (lo : Z) (hi : option Z) (n n' : Z) :
  Joi.integer_range key lo hi n = inr n' ->
  n' = n /\ lo <= n /\ n <= JS.MAX_SAFE_INTEGER
  /\ match hi with Some h => n <= h | None => True end.
Proof.
  unfold Joi.integer_range.
  destruct (_ && _) eqn:Hs; cbn; [| discriminate].
  apply andb_true_iff in Hs as [_ Hs]. apply Z.leb_le in Hs.
  destruct (Z.ltb_spec n lo) as [Hlo | Hlo]; [discriminate |].
  destruct hi as [h |].
  - destruct (Z.ltb_spec h n) as [Hhi | Hhi]; [discriminate |].
    intros Heq. injection Heq as <-. lia.
  - intros Heq. injection Heq as <-. lia.
Qed.

Lemma array_of_strings_nonempty (key : string) (items items' : list string) (i : nat) :
  array_of_strings key i items = inr items' -> Forall (fun tag => tag <> "") items'.
Proof.
  revert i items'. induction items as [| x rest IH]; intros i items' H; cbn in H.
  - injection H as <-. constructor.
  - destruct (Joi.string_ _ x) as [e | x'] eqn:Hx; [discriminate |]. cbn in H.
    destruct (array_of_strings key (S i) rest) as [e | rest'] eqn:Hr; [discriminate |].
    cbn in H. injection H as <-. constructor; [eapply string_nonempty; eassumption | eauto].
Qed.

Lemma optional_string_nonempty (key : string) (o o' : option string) :
  Joi.optional (Joi.string_ key) o = inr o' -> o' <> Some "".
Proof.
  destruct o as [s |]; cbn.
  - destruct (Joi.string_ key s) as [e | s'] eqn:E; cbn; [discriminate |].
    intros H. injection H as <-. apply string_nonempty in E. congruence.
  - intros H. injection H as <-. discriminate.
Qed.

Section ValidRegistration.

Variable is_uri : string -> bool.

Lemma string_uri_valid (key s s' : string) :
  string_uri is_uri key s = inr s' -> is_uri s' = true.
Proof.
  unfold string_uri. destruct (Joi.string_ key s) as [e | s0]; cbn; [discriminate |].
  destruct (is_uri s0) eqn:E; [| discriminate]. intros H. injection H as <-. exact E.
Qed.

Lemma location_schema_valid (l : Body.loc) (l' : Registration.loc) :
  location_schema l = inr l' ->
  (-90 <= Registration.lat (Registration.coordinates l'))%Q
  /\ (Registration.lat (Registration.coordinates l') <= 90)%Q
  /\ (-180 <= Registration.lon (Registration.coordinates l'))%Q
  /\ (Registration.lon (Registration.coordinates l') <= 180)%Q
  /\ Registration.city l' <> Some ""
  /\ Registration.country l' <> Some "".
Proof.
  unfold location_schema. destruct l as [[[lat lon] |] city country]; cbn; [| discriminate].
  unfold coordinates_schema. cbn.
  destruct lat as [lat |]; cbn; [| discriminate].
  destruct (Joi.number_range _ _ _ lat) as [e | lat'] eqn:Hlat; cbn; [discriminate |].
  destruct lon as [lon |]; cbn; [| discriminate].
  destruct (Joi.number_range _ _ _ lon) as [e | lon'] eqn:Hlon; cbn; [discriminate |].
  destruct (Joi.optional _ city) as [e | city'] eqn:Hcity; cbn; [discriminate |].
  destruct (Joi.optional _ country) as [e | country'] eqn:Hcountry; cbn; [discriminate |].
  intros H. injection H as <-. cbn.
  apply number_range_bounds in Hlat as [? ?], Hlon as [? ?].
  apply optional_string_nonempty in Hcity, Hcountry. tauto.
Qed.

(** The document built from a validated registration is well formed. *)
Lemma agentData_of_well_formed (b : Body.t) (value : Registration.t) (iso : string) :
  agentRegistrationSchema is_uri b = inr value ->
  well_formed is_uri (agentData_of value iso).
Proof.
  unfold agentRegistrationSchema. intros H.
  repeat match type of H with
         | Joi.bind ?c _ = inr _ =>
             let E := fresh "E" in
             destruct c eqn:E; cbn [Joi.bind] in H; [discriminate |]
         end.
  injection H as <-.
  assert (H0 : s <> "").
  { destruct (Body.agentId b); cbn in E; [eapply string_nonempty; eassumption | discriminate]. }
  assert (H1 : s0 <> "").
  { destruct (Body.name b); cbn in E0; [eapply string_nonempty; eassumption | discriminate]. }
  assert (H2 : s1 <> "").
  { destruct (Body.description b); cbn in E1;
      [eapply string_nonempty; eassumption | discriminate]. }
  assert (H3 : is_uri s2 = true).
  { destruct (Body.url b); cbn in E2; [eapply string_uri_valid; eassumption | discriminate]. }
  assert (Htags : Forall (fun tag => tag <> "") l).
  { destruct (Body.tags b); cbn in E3.
    - eapply array_of_strings_nonempty; eassumption.
    - injection E3 as <-. constructor. }
  assert (Hstatus : In s3 status_values).
  { destruct (Body.status b); cbn in E4.
    - eapply string_valid_in; eassumption.
    - injection E4 as <-. cbn. tauto. }
  assert (Hversion : s4 <> "").
  { destruct (Body.version b); cbn in E5.
    - eapply string_nonempty; eassumption.
    - injection E5 as <-. discriminate. }
  unfold well_formed, agentData_of.
  cbn [AgentData.agentId AgentData.name AgentData.description AgentData.url AgentData.tags
       AgentData.status AgentData.version AgentData.location Registration.agentId
       Registration.name Registration.description Registration.url Registration.tags
       Registration.status Registration.version Registration.location].
  repeat (split; [assumption |]).
  destruct (Body.location b) as [bl |]; cbn in E7.
  - destruct (location_schema bl) as [e | l'] eqn:Hl; cbn in E7; [discriminate |].
    injection E7 as <-. apply location_schema_valid in Hl.
    unfold well_formed_location. cbn. split; [| tauto].
    exists (Registration.lat (Registration.coordinates l')),
      (Registration.lon (Registration.coordinates l')). tauto.
  - injection E7 as <-. exact I.
Qed.

End ValidRegistration.

(** ** Invalid input and failing cluster *)

(** X3: a registration or a search that its schema rejects is answered
    400 with the first failing detail, and nothing else happens: no request
    is sent to the cluster and the index, the cache and the counters are
    untouched. *)
Theorem invalid_input_never_reaches_the_store
  (is_uri : string -> bool) (b : Body.t) (rq : Query.t) (e e' : JoiError) (env : Env) (s : State) :
  agentRegistrationSchema is_uri b = inl e ->
  searchQuerySchema rq = inl e' ->
  handle (register is_uri b) env s = ({| status := 400; body := validation_error e |}, s)
  /\ handle (search rq) env s = ({| status := 400; body := validation_error e' |}, s).
Proof.
  intros Hb Hrq. split.
  - rewrite register_run, Hb. reflexivity.
  - unfold handle, search, try_catch. rewrite Hrq. reflexivity.
Qed.

Lemma invalid_input_never_reaches_the_store_witness :
  handle (register is_sample_uri empty_body) sample_env weather_registered
  = ({| status := 400; body := validation_error (AnyRequired "agentId") |}, weather_registered)
  /\ handle (search empty_text_request) sample_env weather_registered
     = ({| status := 400; body := validation_error (StringEmpty "q") |}, weather_registered).
Proof.
  apply (invalid_input_never_reaches_the_store is_sample_uri empty_body empty_text_request
           (AnyRequired "agentId") (StringEmpty "q") sample_env weather_registered);
    reflexivity.
Defined.

(** X4: a registration answered 500 may or may not have been written.
    When the cluster refuses the index request, nothing is written and the
    cached card is kept; when it accepts the index request and then fails
    the refresh, the answer is 500 all the same, yet the document is stored
    and readable by id, the cached card is dropped, and searches do not see
    the document. *)
Theorem failed_registration_may_be_written
  (is_uri : string -> bool) (b : Body.t) (value : Registration.t) (env1 env2 : Env) (s : State) :
  agentRegistrationSchema is_uri b = inr value ->
  reachable env1 (index_doc (Registration.agentId value)) = false ->
  reachable env2 (index_doc (Registration.agentId value)) = true ->
  reachable env2 indices_refresh = false ->
  (status (fst (handle (register is_uri b) env1 s)) = 500
   /\ same_data s (snd (handle (register is_uri b) env1 s)))
  /\ status (fst (handle (register is_uri b) env2 s)) = 500
  /\ live (snd (handle (register is_uri b) env2 s)) !! Registration.agentId value
     = Some (agentData_of value (now_iso env2))
  /\ visible (snd (handle (register is_uri b) env2 s)) = visible s
  /\ agentCache (snd (handle (register is_uri b) env2 s)) !! cacheKey (Registration.agentId value)
     = None.
Proof.
  intros Hv Hdown Hup Hrefresh. rewrite !register_run, Hv. cbn zeta.
  change (AgentData.agentId (agentData_of value (now_iso env1)))
    with (Registration.agentId value).
  change (AgentData.agentId (agentData_of value (now_iso env2)))
    with (Registration.agentId value).
  rewrite Hdown, Hup, Hrefresh. cbn.
  repeat split; [apply lookup_insert_eq | apply lookup_delete_eq].
Qed.

Lemma failed_registration_may_be_written_witness :
  status (fst (handle (register is_sample_uri weather_body) refresh_down_env initial)) = 500
  /\ live (snd (handle (register is_sample_uri weather_body) refresh_down_env initial))
       !! "weather-agent-001" = Some weather_agent
  /\ visible (snd (handle (register is_sample_uri weather_body) refresh_down_env initial)) = ∅.
Proof.
  pose proof (failed_registration_may_be_written is_sample_uri weather_body
                (Registration.mk "weather-agent-001" "Weather Assistant"
                   "Provides real-time weather information and forecasts for any location"
                   "http://localhost:3001" ["weather"; "forecast"; "location"] "active"
                   "1.2.0" "Weather queries, location-based forecasts, historical data"
                   (Some (Registration.mk_loc
                            (Registration.mk_coords 40.7128%Q (-74.006)%Q) None None)))
                cluster_down_env refresh_down_env initial
                eq_refl eq_refl eq_refl eq_refl) as (_ & H500 & Hlive & Hvis & _).
  split; [exact H500 | split; [exact Hlive | exact Hvis]].
Defined.

(** ** The documents of the index *)

Lemma index_invariant_initial (is_uri : string -> bool) : index_invariant is_uri initial.
Proof. split; intros id d H; cbn in H; rewrite lookup_empty in H; discriminate. Qed.

Lemma index_invariant_same_data (is_uri : string -> bool) (s s' : State) :
  same_data s s' -> index_invariant is_uri s -> index_invariant is_uri s'.
Proof. intros (Hl & Hv & _) [Il Iv]. split; [rewrite Hl | rewrite Hv]; assumption. Qed.

Lemma getCard_index (agentId : string) (env : Env) (s : State) :
  live (snd (handle (getCard agentId) env s)) = live s
  /\ visible (snd (handle (getCard agentId) env s)) = visible s.
Proof.
  destruct (live_entry (now_ms env) (agentCache s) (cacheKey agentId)) as [card |] eqn:E.
  - rewrite (getCard_hit_run _ _ _ _ E). split; reflexivity.
  - rewrite (getCard_miss_run _ _ _ E). cbn zeta.
    pose proof (purge_frame (now_ms env) (cacheKey agentId) s) as (Hl & Hv & _).
    destruct (reachable env (get_doc agentId)); [| cbn; auto].
    destruct (live s !! agentId) as [d |]; [| cbn; auto].
    destruct (origin env (card_url d)); cbn; auto.
Qed.

Lemma register_index (is_uri : string -> bool) (b : Body.t) (env : Env) (s : State) :
  index_invariant is_uri s -> index_invariant is_uri (snd (handle (register is_uri b) env s)).
Proof.
  intros [Il Iv]. rewrite register_run.
  destruct (agentRegistrationSchema is_uri b) as [e | value] eqn:Hv; [split; assumption |].
  cbn zeta.
  assert (Hnew : forall (id : string) (d : AgentData.t),
             (<[AgentData.agentId (agentData_of value (now_iso env))
                := agentData_of value (now_iso env)]> (live s) : gmap string AgentData.t)
               !! id = Some d ->
             AgentData.agentId d = id /\ well_formed is_uri d).
  { intros id d. rewrite lookup_insert. case_decide as Hk.
    - intros H. injection H as <-. split; [exact Hk |].
      eapply agentData_of_well_formed; eassumption.
    - apply Il. }
  destruct (reachable env (index_doc _)); [| split; assumption].
  destruct (reachable env indices_refresh); split; cbn; assumption.
Qed.

Lemma deleteAgent_index (is_uri : string -> bool) (agentId : string) (env : Env) (s : State) :
  index_invariant is_uri s -> index_invariant is_uri (snd (handle (deleteAgent agentId) env s)).
Proof.
  intros [Il Iv]. rewrite deleteAgent_run. cbn zeta.
  destruct (reachable env (delete_doc agentId)); [| split; assumption].
  destruct (live s !! agentId); [| split; assumption].
  split; cbn; [| assumption].
  intros id d H. apply lookup_delete_Some in H as [_ H]. apply Il. exact H.
Qed.

(** X5: every document of the index, whether read by id or seen by
    searches, is a validated registration stored under its own [agentId]:
    non-empty id, name, description and version, a url the URI test
    accepts, non-empty tags, one of the three statuses, and a location
    stored as [[lon; lat]] within [-180,180] and [-90,90].  This holds of
    the empty index and is kept by every route and by the refreshes of the
    index. *)
Theorem documents_stay_well_formed (is_uri : string -> bool) (b : Body.t) (rq : Query.t)
  (agentId : string) (page perPage : option Z) (env : Env) (s : State) :
  index_invariant is_uri s ->
  index_invariant is_uri (snd (handle (register is_uri b) env s))
  /\ index_invariant is_uri (snd (handle (deleteAgent agentId) env s))
  /\ index_invariant is_uri (snd (handle (getCard agentId) env s))
  /\ index_invariant is_uri (snd (handle cacheClear env s))
  /\ index_invariant is_uri (snd (handle (getMetadata agentId) env s))
  /\ index_invariant is_uri (snd (handle (listAgents page perPage) env s))
  /\ index_invariant is_uri (snd (handle (search rq) env s))
  /\ index_invariant is_uri (snd (handle cacheStatus env s))
  /\ index_invariant is_uri (snd (handle health env s))
  /\ index_invariant is_uri (background_refresh s).
Proof.
  intros I.
  pose proof (reading_routes_facts rq agentId page perPage env s) as (R1 & R2 & R3 & R4 & R5).
  split; [apply register_index; exact I |].
  split; [apply deleteAgent_index; exact I |].
  split.
  { destruct (getCard_index agentId env s) as [Hl Hv]. destruct I as [Il Iv].
    split; [rewrite Hl | rewrite Hv]; assumption. }
  split; [destruct I; split; assumption |].
  repeat (split; [eapply index_invariant_same_data; eassumption |]).
  destruct I as [Il Iv]. split; cbn; assumption.
Qed.

Lemma documents_stay_well_formed_witness :
  index_invariant is_sample_uri
    (snd (handle (register is_sample_uri weather_body) registration_env initial))
  /\ index_invariant is_sample_uri (snd (handle (deleteAgent "weather-agent-001") sample_env initial)).
Proof.
  pose proof (documents_stay_well_formed is_sample_uri weather_body Query.empty
                "weather-agent-001" None None registration_env initial
                (index_invariant_initial is_sample_uri)) as (H1 & _).
  pose proof (documents_stay_well_formed is_sample_uri weather_body Query.empty
                "weather-agent-001" None None sample_env initial
                (index_invariant_initial is_sample_uri)) as (_ & H2 & _).
  split; assumption.
Defined.

(** ** The search request *)

Lemma to_double_exact (n : Z) : Z.abs n < 2 ^ 53 -> JS.to_double n = n.
Proof.
  intros H. unfold JS.to_double. cbn zeta.
  destruct (Z.ltb_spec (Z.abs n) (2 ^ 53)); [reflexivity | lia].
Qed.

(** Rounding to a double keeps the sign. *)
Lemma to_double_sign (n : Z) : 0 <= JS.to_double n <-> 0 <= n.
Proof.
  unfold JS.to_double. cbn zeta.
  destruct (Z.ltb_spec (Z.abs n) (2 ^ 53)) as [Hs | Hb]; [tauto |].
  assert (H53 : 0 < 2 ^ 53) by (apply Z.pow_pos_nonneg; lia).
  assert (Ha : 0 < Z.abs n) by lia.
  assert (Hlog : 53 <= Z.log2 (Z.abs n)) by (apply Z.log2_le_pow2; lia).
  pose proof (Z.log2_spec (Z.abs n) Ha) as [Hlo _].
  assert (He : 0 < 2 ^ (Z.log2 (Z.abs n) - 52)) by (apply Z.pow_pos_nonneg; lia).
  assert (Hle : 2 ^ (Z.log2 (Z.abs n) - 52) <= Z.abs n).
  { etransitivity; [| exact Hlo]. apply Z.pow_le_mono_r; lia. }
  assert (Hq : 1 <= Z.abs n / 2 ^ (Z.log2 (Z.abs n) - 52)).
  { apply Z.div_le_lower_bound; lia. }
  set (q := Z.abs n / 2 ^ (Z.log2 (Z.abs n) - 52)) in *.
  set (p := 2 ^ (Z.log2 (Z.abs n) - 52)) in *.
  assert (Hpos : 0 < (if (2 ^ (Z.log2 (Z.abs n) - 52 - 1) <? Z.abs n mod p)
                         || ((Z.abs n mod p =? 2 ^ (Z.log2 (Z.abs n) - 52 - 1)) && Z.odd q)
                      then q + 1 else q) * p).
  { destruct (_ || _); nia. }
  destruct n as [| n | n]; cbn [Z.sgn]; lia.
Qed.

Lemma safe_magnitude (x : Q) (n : Z) :
  Joi.safe x = true -> (x == inject_Z n)%Q ->
  - JS.MAX_SAFE_INTEGER <= n <= JS.MAX_SAFE_INTEGER.
Proof.
  unfold Joi.safe. intros H Hx. apply andb_true_iff in H as [H1 H2].
  apply Qle_bool_iff in H1, H2. rewrite Hx in H1, H2.
  rewrite <- Zle_Qle in H1, H2. lia.
Qed.

Lemma integer_inr (key : string) (x : Q) (n : Z) :
  Joi.integer key x = inr n -> (x == inject_Z n)%Q.
Proof.
  unfold Joi.integer. destruct (negb (Joi.safe x)); [discriminate |].
  destruct (Z.eqb_spec (Zpos (Qden (Qred x))) 1) as [Hd | Hd]; [| discriminate].
  intros H. injection H as <-. rewrite <- (Qred_correct x) at 1.
  destruct (Qred x) as [num den]. cbn in *. injection Hd as ->. reflexivity.
Qed.

Lemma integer_text_inr (key : string) (lo : Z) (hi : option Z) (c : Joi.converted) (n : Z) :
  Joi.integer_text key lo hi c = inr n ->
  (exists x : Q, c = Joi.number x /\ (x == inject_Z n)%Q)
  /\ lo <= n /\ n <= JS.MAX_SAFE_INTEGER
  /\ match hi with Some h => n <= h | None => True end.
Proof.
  unfold Joi.integer_text, Joi.from_text. destruct c as [x | |]; [| discriminate ..].
  destruct (Joi.integer key x) as [e | m] eqn:E; cbn; [discriminate |].
  intros H. apply integer_range_bounds in H as (-> & Hlo & Hsafe & Hhi).
  split; [exists x; split; [reflexivity | eapply integer_inr; eassumption] | auto].
Qed.

Lemma default_integer_bounds (key : string) (d lo : Z) (hi : option Z)
  (o : option Joi.converted) (n : Z) :
  lo <= d -> d <= JS.MAX_SAFE_INTEGER -> match hi with Some h => d <= h | None => True end ->
  Joi.default d (Joi.integer_text key lo hi) o = inr n ->
  integer_of d o n /\ lo <= n /\ n <= JS.MAX_SAFE_INTEGER
  /\ match hi with Some h => n <= h | None => True end.
Proof.
  intros Hlo Hsafe Hhi. destruct o as [c |]; cbn.
  - intros H. apply integer_text_inr in H. exact H.
  - intros H. injection H as <-. auto.
Qed.

Lemma optional_number_bounds (key : string) (lo hi : Q) (o : option Joi.converted)
  (o' : option Q) :
  Joi.optional (Joi.number_text key lo hi) o = inr o' ->
  o = option_map Joi.number o'
  /\ forall x : Q, o' = Some x -> (lo <= x)%Q /\ (x <= hi)%Q.
Proof.
  destruct o as [c |]; cbn.
  - unfold Joi.number_text, Joi.from_text. destruct c as [x | |]; [| discriminate ..].
    destruct (Joi.number_range key lo hi x) as [e | x'] eqn:E; cbn; [discriminate |].
    intros H. injection H as <-. pose proof (number_range_inr _ _ _ _ _ E) as ->.
    split; [reflexivity |]. intros y Hy. injection Hy as <-.
    eapply number_range_bounds; eassumption.
  - intros H. injection H as <-. split; [reflexivity | discriminate].
Qed.

(** What a validated search request holds. *)
Lemma searchQuerySchema_inr (rq : Query.t) (v : Search.t) :
  searchQuerySchema rq = inr v ->
  Search.q v = Query.q rq /\ Search.q v <> Some ""
  /\ Search.tags v = Query.tags rq /\ Search.tags v <> Some ""
  /\ Search.status v = Query.status rq
  /\ (forall st : string, Search.status v = Some st -> In st status_values)
  /\ Search.version v = Query.version rq /\ Search.version v <> Some ""
  /\ Query.lat rq = option_map Joi.number (Search.lat v)
  /\ (forall x : Q, Search.lat v = Some x -> (-90 <= x)%Q /\ (x <= 90)%Q)
  /\ Query.lon rq = option_map Joi.number (Search.lon v)
  /\ (forall x : Q, Search.lon v = Some x -> (-180 <= x)%Q /\ (x <= 180)%Q)
  /\ integer_of 1 (Query.page rq) (Search.page v)
  /\ 1 <= Search.page v <= JS.MAX_SAFE_INTEGER
  /\ integer_of 20 (Query.perPage rq) (Search.perPage v)
  /\ 1 <= Search.perPage v <= 100.
Proof.
  unfold searchQuerySchema. intros H.
  repeat match type of H with
         | Joi.bind ?c _ = inr _ =>
             let E := fresh "E" in
             destruct c eqn:E; cbn [Joi.bind] in H; [discriminate |]
         end.
  injection H as <-. cbn.
  pose proof (optional_string_nonempty _ _ _ E) as Hq.
  pose proof (optional_string_nonempty _ _ _ E0) as Htags.
  pose proof (optional_string_nonempty _ _ _ E2) as Hversion.
  apply optional_inr in E, E0, E2; try (intros a a'; apply string_inr).
  assert (Hstatus : o1 = Query.status rq
                    /\ forall st : string, o1 = Some st -> In st status_values).
  { destruct (Query.status rq) as [st |]; cbn in E1.
    - destruct (Joi.string_valid "status" status_values st) as [e | st'] eqn:Est;
        cbn in E1; [discriminate |].
      injection E1 as <-. pose proof (string_valid_inr _ _ _ _ Est) as ->.
      split; [reflexivity |]. intros st0 H0. injection H0 as <-.
      eapply string_valid_in; eassumption.
    - injection E1 as <-. split; [reflexivity | discriminate]. }
  apply optional_number_bounds in E5 as [Elat Hlat], E6 as [Elon Hlon].
  apply default_integer_bounds in E7 as (Epage & ? & ? & _);
    [| unfold JS.MAX_SAFE_INTEGER; lia ..| exact I].
  apply default_integer_bounds in E8 as (EperPage & ? & ? & ?);
    [| unfold JS.MAX_SAFE_INTEGER; lia ..].
  destruct Hstatus as [-> Hst]. subst.
  repeat split; auto; first [apply Hlat; assumption | apply Hlon; assumption].
Qed.

(** The offset of a validated search: the product, rounded to a double. *)
Lemma compile_from (v : Search.t) :
  1 <= Search.page v <= JS.MAX_SAFE_INTEGER ->
  from (compile v) = JS.to_double ((Search.page v - 1) * Search.perPage v).
Proof.
  intros Hp. change (from (compile v))
    with (JS.to_double (JS.to_double (Search.page v - 1) * Search.perPage v)).
  rewrite (to_double_exact (Search.page v - 1)); [reflexivity |].
  unfold JS.MAX_SAFE_INTEGER in Hp. change (2 ^ 53) with 9007199254740992. lia.
Qed.

(** X6: a search request that passes the schema has page >= 1 and
    1 <= perPage <= 100, each the number its text converts to, or 1 and 20
    when left out; its coordinates are the numbers their texts convert to,
    within [-90,90] and [-180,180]; its status is among the three, and its
    text, tags and version are not empty.  The query sent to the index has
    size [perPage] and, as offset, [(page - 1) * perPage] rounded to a
    double: the product itself below 2^53, never negative. *)
Theorem validated_search_is_bounded (rq : Query.t) (v : Search.t) :
  searchQuerySchema rq = inr v ->
  integer_of 1 (Query.page rq) (Search.page v)
  /\ 1 <= Search.page v <= JS.MAX_SAFE_INTEGER
  /\ integer_of 20 (Query.perPage rq) (Search.perPage v)
  /\ 1 <= Search.perPage v <= 100
  /\ from (compile v) = JS.to_double ((Search.page v - 1) * Search.perPage v)
  /\ ((Search.page v - 1) * Search.perPage v < 2 ^ 53 ->
      from (compile v) = (Search.page v - 1) * Search.perPage v)
  /\ 0 <= from (compile v)
  /\ size_ (compile v) = Search.perPage v
  /\ Query.lat rq = option_map Joi.number (Search.lat v)
  /\ (forall x : Q, Search.lat v = Some x -> (-90 <= x)%Q /\ (x <= 90)%Q)
  /\ Query.lon rq = option_map Joi.number (Search.lon v)
  /\ (forall x : Q, Search.lon v = Some x -> (-180 <= x)%Q /\ (x <= 180)%Q)
  /\ (forall st : string, Search.status v = Some st -> In st status_values)
  /\ Search.q v <> Some "" /\ Search.tags v <> Some "" /\ Search.version v <> Some "".
Proof.
  intros H. apply searchQuerySchema_inr in H
    as (_ & Hq & _ & Htags & _ & Hst & _ & Hver & Elat & Hlat & Elon & Hlon
        & Hp & Hpb & Hpp & Hppb).
  pose proof (compile_from v Hpb) as Hfrom.
  split; [exact Hp |]. split; [exact Hpb |]. split; [exact Hpp |]. split; [exact Hppb |].
  split; [exact Hfrom |]. split.
  { intros Hsmall. rewrite Hfrom. apply to_double_exact. nia. }
  split; [rewrite Hfrom; apply to_double_sign; nia |].
  split; [reflexivity |]. tauto.
Qed.

(** Page 9007199254740990 with three agents a page passes the schema; the
    offset sent is the double nearest to the product, one above it. *)
Example offset_is_rounded_above_2_53 :
  searchQuerySchema
    (Query.mk None None None None None None None None
       (Some (Joi.number (inject_Z 9007199254740990))) (Some (Joi.number 3%Q)) None)
  = inr (Search.mk None None None None None None None None 9007199254740990 3 relevance)
  /\ (9007199254740990 - 1) * 3 = 27021597764222967
  /\ from (compile (Search.mk None None None None None None None None 9007199254740990 3
                      relevance)) = 27021597764222968.
Proof. repeat split. Qed.

Lemma validated_search_is_bounded_witness :
  from (compile (Search.mk (Some "weather") None None None (Some "Paris") (Some "France")
                   None None 1 20 distance_)) = 0
  /\ size_ (compile (Search.mk (Some "weather") None None None (Some "Paris")
                       (Some "France") None None 1 20 distance_)) = 20.
Proof.
  pose proof (validated_search_is_bounded paris_request
                (Search.mk (Some "weather") None None None (Some "Paris") (Some "France")
                   None None 1 20 distance_) eq_refl)
    as (_ & _ & _ & _ & Hfrom & _ & _ & Hsize & _).
  split; [exact Hfrom | exact Hsize].
Defined.

(** X7: [city] and [country] are checked by the schema and then ignored:
    a search carrying them, valid, gets the very answer of the same search
    without them and sends the same query to the index. *)
Theorem place_parameters_are_ignored (rq : Query.t) (env : Env) (s : State) :
  Query.city rq <> Some "" ->
  Query.country rq <> Some "" ->
  handle (search rq) env s = handle (search (without_place rq)) env s.
Proof.
  intros Hcity Hcountry. destruct rq as [q tags st ver city country lat lon page perPage sort].
  cbn in Hcity, Hcountry. unfold without_place, handle, search, try_catch, searchQuerySchema.
  cbn [Query.q Query.tags Query.status Query.version Query.city Query.country Query.lat
       Query.lon Query.page Query.perPage Query.sort].
  destruct (Joi.optional (Joi.string_ "q") q); cbn [Joi.bind]; [reflexivity |].
  destruct (Joi.optional (Joi.string_ "tags") tags); cbn [Joi.bind]; [reflexivity |].
  destruct (Joi.optional (Joi.string_valid "status" status_values) st); cbn [Joi.bind];
    [reflexivity |].
  destruct (Joi.optional (Joi.string_ "version") ver); cbn [Joi.bind]; [reflexivity |].
  assert (Hc : exists c, Joi.optional (Joi.string_ "city") city = inr c) .
  { destruct city as [[| a r] |]; [contradiction | eexists; reflexivity ..]. }
  assert (Hd : exists c, Joi.optional (Joi.string_ "country") country = inr c).
  { destruct country as [[| a r] |]; [contradiction | eexists; reflexivity ..]. }
  destruct Hc as [c ->], Hd as [c' ->]. cbn [Joi.bind Joi.optional].
  destruct (Joi.optional (Joi.number_text "lat" (-90) 90) lat); cbn [Joi.bind]; [reflexivity |].
  destruct (Joi.optional (Joi.number_text "lon" (-180) 180) lon); cbn [Joi.bind];
    [reflexivity |].
  destruct (Joi.default 1 (Joi.integer_text "page" 1 None) page); cbn [Joi.bind];
    [reflexivity |].
  destruct (Joi.default 20 (Joi.integer_text "perPage" 1 (Some 100)) perPage);
    cbn [Joi.bind]; [reflexivity |].
  destruct (Joi.default relevance sort_valid sort); cbn [Joi.bind]; reflexivity.
Qed.

Lemma place_parameters_are_ignored_witness :
  handle (search paris_request) sample_env weather_registered
  = handle (search (without_place paris_request)) sample_env weather_registered.
Proof.
  apply (place_parameters_are_ignored paris_request sample_env weather_registered);
    discriminate.
Defined.

(** X8: the sort value [distance] selects nothing by itself: a search with
    [sort=distance] is answered exactly like the same search with
    [sort=relevance] or with no [sort] at all; only [lat] and [lon] bring
    the distance ordering. *)
Theorem sort_distance_is_sort_relevance (rq : Query.t) (env : Env) (s : State) :
  handle (search (with_sort (Some "distance") rq)) env s
  = handle (search (with_sort (Some "relevance") rq)) env s
  /\ handle (search (with_sort (Some "distance") rq)) env s
     = handle (search (with_sort None rq)) env s.
Proof.
  destruct rq as [q tags st ver city country lat lon page perPage sort].
  unfold with_sort, handle, search, try_catch, searchQuerySchema.
  cbn [Query.q Query.tags Query.status Query.version Query.city Query.country Query.lat
       Query.lon Query.page Query.perPage Query.sort].
  destruct (Joi.optional (Joi.string_ "q") q); cbn [Joi.bind]; [split; reflexivity |].
  destruct (Joi.optional (Joi.string_ "tags") tags); cbn [Joi.bind]; [split; reflexivity |].
  destruct (Joi.optional (Joi.string_valid "status" status_values) st); cbn [Joi.bind];
    [split; reflexivity |].
  destruct (Joi.optional (Joi.string_ "version") ver); cbn [Joi.bind]; [split; reflexivity |].
  destruct (Joi.optional (Joi.string_ "city") city); cbn [Joi.bind]; [split; reflexivity |].
  destruct (Joi.optional (Joi.string_ "country") country); cbn [Joi.bind];
    [split; reflexivity |].
  destruct (Joi.optional (Joi.number_text "lat" (-90) 90) lat); cbn [Joi.bind];
    [split; reflexivity |].
  destruct (Joi.optional (Joi.number_text "lon" (-180) 180) lon); cbn [Joi.bind];
    [split; reflexivity |].
  destruct (Joi.default 1 (Joi.integer_text "page" 1 None) page); cbn [Joi.bind];
    [split; reflexivity |].
  destruct (Joi.default 20 (Joi.integer_text "perPage" 1 (Some 100)) perPage);
    cbn [Joi.bind]; split; reflexivity.
Qed.

(** X9: the compiled query has at most two sort clauses, a distance
    clause only in first position and at most one; it has none at all, so
    that the index ranks by relevance, exactly when a non-empty text is
    given, the sort is [relevance] or [distance], and [lat && lon] is
    falsy. *)
Theorem sort_clause_shape (v : Search.t) :
  (length (sortClause (compile v)) <= 2)%nat
  /\ existsb is_geo_clause (tail (sortClause (compile v))) = false
  /\ (geo_requested v = true -> exists c, head (sortClause (compile v)) = Some c
                                         /\ is_geo_clause c = true)
  /\ (sortClause (compile v) = []
      <-> has_text v = true /\ geo_requested v = false
          /\ (Search.sort v = relevance \/ Search.sort v = distance_)).
Proof.
  unfold compile, geo_requested, has_text. cbn [sortClause].
  destruct (Search.lat v) as [lat |], (Search.lon v) as [lon |];
    try destruct (JS.truthy_number lat); try destruct (JS.truthy_number lon);
    destruct (Search.sort v); destruct (JS.truthy_opt JS.truthy_string (Search.q v));
    cbn; (split; [lia |]); (split; [reflexivity |]);
    (split; [first [discriminate | intros _; eexists; split; reflexivity] |]);
    (split; [intros H; first [discriminate H | repeat split; auto]
            | intros (H1 & H2 & [H3 | H3]); first [discriminate | reflexivity]]).
Qed.

(** ** The tags filter *)

Lemma split_nonempty (sep : ascii) (s : string) : JS.split sep s <> [].
Proof.
  destruct s as [| a r]; cbn; [discriminate |].
  destruct (Ascii.eqb a sep); [discriminate |]. destruct (JS.split sep r); discriminate.
Qed.

Lemma split_length (sep : ascii) (s : string) :
  length (JS.split sep s) = S (count_char sep s).
Proof.
  induction s as [| a r IH]; [reflexivity |]. cbn.
  destruct (Ascii.eqb a sep); cbn; [rewrite IH; reflexivity |].
  destruct (JS.split sep r) eqn:E; [destruct (split_nonempty _ _ E) |]. cbn in *. exact IH.
Qed.

Lemma split_no_separator (sep : ascii) (s : string) :
  Forall (fun piece => count_char sep piece = 0%nat) (JS.split sep s).
Proof.
  induction s as [| a r IH]; cbn; [repeat constructor |].
  destruct (Ascii.eqb a sep) eqn:Ea; [constructor; [reflexivity | exact IH] |].
  destruct (JS.split sep r) as [| h t]; [repeat constructor; cbn; rewrite Ea; reflexivity |].
  inversion IH as [| ? ? Hh Ht]; subst. constructor; [cbn; rewrite Ea; exact Hh | exact Ht].
Qed.

Lemma split_join (sep : ascii) (s : string) : join sep (JS.split sep s) = s.
Proof.
  induction s as [| a r IH]; [reflexivity |]. cbn.
  destruct (Ascii.eqb_spec a sep) as [-> | Hne].
  - destruct (JS.split sep r) eqn:E; [destruct (split_nonempty _ _ E) |].
    exact (f_equal (String sep) IH).
  - destruct (JS.split sep r) as [| h t] eqn:E; [destruct (split_nonempty _ _ E) |].
    destruct t as [| h' t']; exact (f_equal (String a) IH).
Qed.

Lemma trim_start_keeps (c : ascii) (s : string) :
  count_char c s = 0%nat -> count_char c (JS.trim_start s) = 0%nat.
Proof.
  induction s as [| a r IH]; [auto |]. cbn. destruct (JS.is_white_space a); [| auto].
  intros H. apply IH. destruct (Ascii.eqb a c); [discriminate | exact H].
Qed.

Lemma trim_end_keeps (c : ascii) (s : string) :
  count_char c s = 0%nat -> count_char c (JS.trim_end s) = 0%nat.
Proof.
  induction s as [| a r IH]; [auto |]. cbn. intros H.
  assert (Ha : Ascii.eqb a c = false) by (destruct (Ascii.eqb a c); [discriminate | reflexivity]).
  rewrite Ha in H. cbn in H. specialize (IH H).
  destruct (JS.trim_end r) as [| b r'].
  - destruct (JS.is_white_space a); cbn; [reflexivity | rewrite Ha; reflexivity].
  - cbn. rewrite Ha. exact IH.
Qed.

Lemma trim_start_fixed (s : string) :
  match s with
  | EmptyString => True
  | String a _ => JS.is_white_space a = false
  end -> JS.trim_start s = s.
Proof. destruct s as [| a r]; cbn; [reflexivity |]. intros ->. reflexivity. Qed.

Lemma trim_start_head (s : string) :
  match JS.trim_start s with
  | EmptyString => True
  | String a _ => JS.is_white_space a = false
  end.
Proof.
  induction s as [| a r IH]; cbn; [exact I |].
  destruct (JS.is_white_space a) eqn:E; [exact IH | exact E].
Qed.

Lemma trim_end_head (s : string) :
  match s with
  | EmptyString => True
  | String a _ => JS.is_white_space a = false
  end ->
  match JS.trim_end s with
  | EmptyString => s = EmptyString
  | String a _ => JS.is_white_space a = false
  end.
Proof.
  destruct s as [| a r]; cbn; [reflexivity |]. intros Ha.
  destruct (JS.trim_end r); [rewrite Ha |]; exact Ha.
Qed.

Lemma trim_end_idempotent (s : string) : JS.trim_end (JS.trim_end s) = JS.trim_end s.
Proof.
  induction s as [| a r IH]; [reflexivity |]. cbn.
  destruct (JS.trim_end r) as [| b r'] eqn:E.
  - destruct (JS.is_white_space a) eqn:Ea; cbn; [reflexivity | rewrite Ea; reflexivity].
  - cbn [JS.trim_end]. cbn [JS.trim_end] in IH. rewrite IH. reflexivity.
Qed.

(** What [trim] returns has no white space at either end, and trimming it
    again changes nothing. *)
Lemma trim_trimmed (s : string) : trimmed (JS.trim s) /\ JS.trim (JS.trim s) = JS.trim s.
Proof.
  assert (Hs : JS.trim_start (JS.trim s) = JS.trim s).
  { unfold JS.trim. apply trim_start_fixed.
    pose proof (trim_end_head (JS.trim_start s) (trim_start_head s)) as H.
    destruct (JS.trim_end (JS.trim_start s)); [exact I | exact H]. }
  assert (He : JS.trim_end (JS.trim s) = JS.trim s) by apply trim_end_idempotent.
  split; [split; assumption |].
  unfold JS.trim at 1. rewrite Hs. exact He.
Qed.

(** X10: a non-empty [tags] parameter becomes the first filter, a
    match-any over the comma-separated pieces: one value per piece (commas
    plus one, joining the pieces back with commas gives the parameter),
    each value free of commas and of white space at both ends, and
    unchanged by a second trim. *)
Theorem tags_filter_values (v : Search.t) (tags : string) :
  Search.tags v = Some tags ->
  tags <> "" ->
  head (filter_of (query (compile v)))
  = Some (terms "tags" (map JS.trim (JS.split "," tags)))
  /\ length (map JS.trim (JS.split "," tags)) = S (count_char "," tags)
  /\ join "," (JS.split "," tags) = tags
  /\ Forall (fun value => count_char "," value = 0%nat /\ trimmed value
                          /\ JS.trim value = value)
       (map JS.trim (JS.split "," tags)).
Proof.
  intros Htags Hne. split; [| split; [| split]].
  - unfold compile. cbn [query filter_of]. rewrite Htags.
    destruct tags as [| a r]; [contradiction |]. cbn [JS.truthy_string push app].
    destruct (Search.status v) as [st |]; [destruct (JS.truthy_string st) |];
      (destruct (Search.version v) as [ver |]; [destruct (JS.truthy_string ver) |]);
      reflexivity.
  - rewrite length_map. apply split_length.
  - apply split_join.
  - apply Forall_fmap. eapply Forall_impl; [apply split_no_separator |].
    intros piece Hp. cbn. split; [| apply trim_trimmed].
    unfold JS.trim. apply trim_end_keeps, trim_start_keeps, Hp.
Qed.

Lemma tags_filter_values_witness :
  head (filter_of (query (compile finance_value))) = Some (terms "tags" ["finance"; "stocks"])
  /\ join "," (JS.split "," "finance, stocks") = "finance, stocks".
Proof.
  pose proof (tags_filter_values finance_value "finance, stocks" eq_refl
                ltac:(discriminate)) as (H1 & _ & H2 & _).
  split; [exact H1 | exact H2].
Defined.

(** ** The card cache and its counters *)

Lemma getCard_counts_one (agentId : string) (env : Env) (s : State) :
  lookups (snd (handle (getCard agentId) env s)) = S (lookups s).
Proof.
  unfold lookups.
  destruct (live_entry (now_ms env) (agentCache s) (cacheKey agentId)) as [card |] eqn:E.
  - rewrite (getCard_hit_run _ _ _ _ E). reflexivity.
  - rewrite (getCard_miss_run _ _ _ E). cbn zeta.
    pose proof (purge_frame (now_ms env) (cacheKey agentId) s) as (_ & _ & Hstats & _).
    destruct (reachable env (get_doc agentId)); [| cbn; rewrite Hstats; lia].
    destruct (live s !! agentId) as [d |]; [| cbn; rewrite Hstats; lia].
    destruct (origin env (card_url d)); cbn; rewrite Hstats; lia.
Qed.

Lemma serve_cards_snoc (requests : list (string * Env)) (r : string * Env) (s : State) :
  serve_cards (requests ++ [r]) s
  = snd (handle (getCard (fst r)) (snd r) (serve_cards requests s)).
Proof. unfold serve_cards. rewrite fold_left_app. reflexivity. Qed.

(** X11: every card request is counted exactly once, as a hit or as a
    miss, whatever its outcome: after any sequence of card requests,
    [hits + misses] has grown by the number of requests. *)
Theorem every_card_request_is_counted (requests : list (string * Env)) (s : State) :
  lookups (serve_cards requests s) = (lookups s + length requests)%nat.
Proof.
  induction requests as [| r requests IH] using rev_ind.
  - cbn. lia.
  - rewrite serve_cards_snoc, getCard_counts_one, IH, length_app. cbn. lia.
Qed.

(** X12: clearing the cache empties it and zeroes both counters in one
    request, without touching the index; the status request that follows
    reports 0 entries, 0 hits, 0 misses and a hit rate of 0, and the next
    card request for any id is a miss. *)
Theorem cacheClear_resets_cache_and_counters (agentId : string) (env env' : Env) (s : State) :
  fst (handle cacheClear env s)
  = {| status := 200; body := message_body "Cache cleared successfully" |}
  /\ agentCache (snd (handle cacheClear env s)) = ∅
  /\ cacheStats (snd (handle cacheClear env s)) = CacheStats.mk 0 0 0
  /\ live (snd (handle cacheClear env s)) = live s
  /\ visible (snd (handle cacheClear env s)) = visible s
  /\ outbound (snd (handle cacheClear env s)) = outbound s
  /\ fst (handle cacheStatus env' (snd (handle cacheClear env s)))
     = {| status := 200; body := cache_status 0 0 0 (JS.Fin 0%Q) 0 0 |}
  /\ CacheStats.misses
       (cacheStats (snd (handle (getCard agentId) env' (snd (handle cacheClear env s)))))
     = 1%nat.
Proof.
  do 7 (split; [reflexivity |]).
  assert (Hmiss : live_entry (now_ms env') (agentCache (snd (handle cacheClear env s)))
                    (cacheKey agentId) = None) by (apply live_entry_absent; reflexivity).
  rewrite (getCard_miss_run _ _ _ Hmiss). cbn zeta.
  destruct (reachable env' (get_doc agentId)); [| reflexivity].
  destruct (live _ !! agentId) as [d |]; [| reflexivity].
  destruct (origin env' (card_url d)); reflexivity.
Qed.

(** X13: in the card answered after a fetch, [agentId] is the id of the
    request, [cached] is false and [fetchTimestamp] is the time of the
    request, whatever the agent's endpoint sent under these names; every
    other property is the one the endpoint sent. *)
Theorem fetched_card_is_stamped_by_the_registry
  (agentId : string) (env : Env) (s : State) (d : AgentData.t) (data : jsval) :
  live_entry (now_ms env) (agentCache s) (cacheKey agentId) = None ->
  reachable env (get_doc agentId) = true ->
  live s !! agentId = Some d ->
  origin env (card_url d) = Some data ->
  exists card : gmap string jsval,
    fst (handle (getCard agentId) env s) = {| status := 200; body := card_body card |}
    /\ card !! "agentId" = Some (JString agentId)
    /\ card !! "cached" = Some (JBool false)
    /\ card !! "fetchTimestamp" = Some (JString (now_iso env))
    /\ (forall k : string, k <> "agentId" -> k <> "cached" -> k <> "fetchTimestamp" ->
          card !! k = own_properties data !! k).
Proof.
  intros Hmiss Hup Hdoc Hfetch.
  rewrite (getCard_miss_run _ _ _ Hmiss). cbn zeta. rewrite Hup, Hdoc, Hfetch.
  eexists. split; [reflexivity |].
  repeat split; try (rewrite fetched_card_lookup; reflexivity).
  intros k H1 H2 H3. rewrite fetched_card_lookup, !decide_False by assumption. reflexivity.
Qed.

Lemma fetched_card_is_stamped_by_the_registry_witness :
  exists card : gmap string jsval,
    fst (handle (getCard "weather-agent-001") spoofing_env weather_registered)
    = {| status := 200; body := card_body card |}
    /\ card !! "agentId" = Some (JString "weather-agent-001")
    /\ card !! "cached" = Some (JBool false).
Proof.
  destruct (fetched_card_is_stamped_by_the_registry "weather-agent-001" spoofing_env
              weather_registered weather_agent
              (JObject (<["agentId" := JString "someone-else"]>
                          (<["cached" := JBool true]>
                             {[ "name" := JString "Weather Assistant" ]})))
              eq_refl eq_refl eq_refl eq_refl) as (card & H1 & H2 & H3 & _).
  exists card. repeat split; assumption.
Defined.

Lemma cacheKey_inj (a b : string) : cacheKey a = cacheKey b -> a = b.
Proof. unfold cacheKey. intros H. injection H as H. exact H. Qed.

(** X14: registering or deleting one agent invalidates the cached card of
    that agent only: the entry of any other agent is left as it is,
    whatever the outcome of the request. *)
Theorem other_cards_stay_cached
  (is_uri : string -> bool) (b : Body.t) (agentId other : string) (env : Env) (s : State) :
  Body.agentId b = Some agentId ->
  other <> agentId ->
  agentCache (snd (handle (register is_uri b) env s)) !! cacheKey other
  = agentCache s !! cacheKey other
  /\ agentCache (snd (handle (deleteAgent agentId) env s)) !! cacheKey other
     = agentCache s !! cacheKey other.
Proof.
  intros Hid Hne.
  assert (Hk : cacheKey agentId <> cacheKey other).
  { intros H. apply cacheKey_inj in H. congruence. }
  split.
  - rewrite register_run.
    destruct (agentRegistrationSchema is_uri b) as [e | value] eqn:Hv; [reflexivity |].
    pose proof (agentRegistrationSchema_inr is_uri b value Hv) as (Hid' & _).
    assert (Registration.agentId value = agentId) as Heq by congruence.
    cbn zeta. change (AgentData.agentId (agentData_of value (now_iso env)))
      with (Registration.agentId value). rewrite Heq.
    destruct (reachable env (index_doc agentId)); [| reflexivity].
    destruct (reachable env indices_refresh); cbn; apply lookup_delete_ne; exact Hk.
  - rewrite deleteAgent_run. cbn zeta.
    destruct (reachable env (delete_doc agentId)); [| reflexivity].
    destruct (live s !! agentId); [| reflexivity].
    cbn. apply lookup_delete_ne. exact Hk.
Qed.

Lemma other_cards_stay_cached_witness :
  agentCache (snd (handle (deleteAgent "weather-agent-001") sample_env two_cards_cached))
    !! cacheKey "translation-agent-002"
  = Some (Wrapped.mk 1704067500000 {[ "name" := JString "Translator" ]})
  /\ agentCache (snd (handle (deleteAgent "weather-agent-001") sample_env two_cards_cached))
       !! cacheKey "weather-agent-001" = None.
Proof.
  pose proof (other_cards_stay_cached is_sample_uri weather_body "weather-agent-001"
                "translation-agent-002" sample_env two_cards_cached eq_refl
                ltac:(discriminate)) as [_ H].
  split; [rewrite H; reflexivity | reflexivity].
Defined.

(** X15: once an agent has been deleted, its card request answers 404
    even though a card was cached a moment before, and so does its
    metadata request; deleting an id the index does not hold answers 404
    and changes nothing, a card cached under that id included. *)
Theorem deleted_agent_has_no_card
  (agentId unknown : string) (env env' : Env) (s : State) (d : AgentData.t) :
  live s !! agentId = Some d ->
  live s !! unknown = None ->
  reachable env (delete_doc agentId) = true ->
  reachable env (delete_doc unknown) = true ->
  reachable env' (get_doc agentId) = true ->
  fst (handle (deleteAgent agentId) env s)
  = {| status := 200; body := message_body "Agent deleted successfully" |}
  /\ agentCache (snd (handle (deleteAgent agentId) env s)) !! cacheKey agentId = None
  /\ fst (handle (getCard agentId) env' (snd (handle (deleteAgent agentId) env s)))
     = {| status := 404; body := error_body "Agent not found" |}
  /\ fst (handle (getMetadata agentId) env' (snd (handle (deleteAgent agentId) env s)))
     = {| status := 404; body := error_body "Agent not found" |}
  /\ fst (handle (deleteAgent unknown) env s)
     = {| status := 404; body := error_body "Agent not found" |}
  /\ same_data s (snd (handle (deleteAgent unknown) env s)).
Proof.
  intros Hdoc Hun Hup Hup1 Hup'. rewrite !deleteAgent_run. cbn zeta.
  rewrite Hup, Hup1, Hdoc, Hun. cbn [fst snd].
  set (s' := set_agentCache _ _).
  assert (Hcache : agentCache s' !! cacheKey agentId = None) by apply lookup_delete_eq.
  assert (Hlive : live s' !! agentId = None) by apply lookup_delete_eq.
  split; [reflexivity |]. split; [exact Hcache |]. split; [| split].
  - rewrite (getCard_miss_run _ _ _ (live_entry_absent _ _ _ Hcache)). cbn zeta.
    rewrite Hup', Hlive. reflexivity.
  - rewrite getMetadata_run. cbn zeta. rewrite Hup', Hlive. reflexivity.
  - split; [reflexivity | apply same_data_record_call].
Qed.

Lemma deleted_agent_has_no_card_witness :
  fst (handle (getCard "weather-agent-001") sample_env
         (snd (handle (deleteAgent "weather-agent-001") sample_env two_cards_cached)))
  = {| status := 404; body := error_body "Agent not found" |}
  /\ fst (handle (deleteAgent "translation-agent-002") sample_env two_cards_cached)
     = {| status := 404; body := error_body "Agent not found" |}.
Proof.
  pose proof (deleted_agent_has_no_card "weather-agent-001" "translation-agent-002"
                sample_env sample_env two_cards_cached weather_agent
                eq_refl eq_refl eq_refl eq_refl eq_refl) as (_ & _ & H1 & _ & H2 & _).
  split; assumption.
Defined.

(** X16: a cached card is served for 300 seconds and no longer: a card
    request made after the time to live of the stored card has passed
    misses, asks the index and the agent again, answers with the newly
    fetched card, [cached] false, and counts a second miss. *)
Theorem expired_card_is_fetched_again
  (agentId : string) (env1 env2 : Env) (s : State) (d : AgentData.t) (data1 data2 : jsval) :
  live s !! agentId = Some d ->
  live_entry (now_ms env1) (agentCache s) (cacheKey agentId) = None ->
  reachable env1 (get_doc agentId) = true ->
  origin env1 (card_url d) = Some data1 ->
  reachable env2 (get_doc agentId) = true ->
  origin env2 (card_url d) = Some data2 ->
  0 < now_ms env1 ->
  now_ms env1 + stdTTL * 1000 < now_ms env2 ->
  fst (handle (getCard agentId) env2 (snd (handle (getCard agentId) env1 s)))
  = {| status := 200; body := card_body (fetched_card data2 agentId (now_iso env2)) |}
  /\ outbound (snd (handle (getCard agentId) env2 (snd (handle (getCard agentId) env1 s))))
     = (outbound (snd (handle (getCard agentId) env1 s))
        ++ [to_cluster (get_doc agentId); http_get (card_url d)])%list
  /\ CacheStats.misses
       (cacheStats (snd (handle (getCard agentId) env2 (snd (handle (getCard agentId) env1 s)))))
     = S (S (CacheStats.misses (cacheStats s)))
  /\ CacheStats.hits
       (cacheStats (snd (handle (getCard agentId) env2 (snd (handle (getCard agentId) env1 s)))))
     = CacheStats.hits (cacheStats s).
Proof.
  intros Hdoc Hmiss Hup1 Hfetch1 Hup2 Hfetch2 Hpos Hlate.
  rewrite (getCard_miss_run _ _ _ Hmiss). cbn zeta. rewrite Hup1, Hdoc, Hfetch1.
  cbn [fst snd].
  set (s1 := set_agentCache _ _).
  pose proof (purge_frame (now_ms env1) (cacheKey agentId) s) as (Hl & _ & Hstats & Hout).
  assert (Hlive : live s1 = live s) by exact Hl.
  assert (Hmiss2 : live_entry (now_ms env2) (agentCache s1) (cacheKey agentId) = None).
  { eapply expired_entry_is_a_miss.
    - unfold s1. cbn. apply lookup_insert_eq.
    - cbn. unfold stdTTL. lia.
    - cbn. exact Hlate. }
  rewrite (getCard_miss_run _ _ _ Hmiss2). cbn zeta. rewrite Hup2, Hlive, Hdoc, Hfetch2.
  pose proof (purge_frame (now_ms env2) (cacheKey agentId) s1) as (_ & _ & Hstats2 & Hout2).
  cbn [fst snd]. split; [reflexivity |].
  cbn [outbound cacheStats record_call set_agentCache bump_misses set_cacheStats
       CacheStats.misses CacheStats.hits].
  rewrite Hstats2, Hout2. split; [rewrite <- app_assoc; reflexivity |].
  unfold s1. cbn. rewrite Hstats. split; reflexivity.
Qed.

Lemma expired_card_is_fetched_again_witness :
  fst (handle (getCard "weather-agent-001") after_ttl_env
         (snd (handle (getCard "weather-agent-001") sample_env weather_registered)))
  = {| status := 200;
       body := card_body (fetched_card (JObject {[ "name" := JString "Weather Assistant" ]})
                            "weather-agent-001" "2024-01-01T00:07:00.000Z") |}.
Proof.
  exact (proj1 (expired_card_is_fetched_again "weather-agent-001" sample_env after_ttl_env
                  weather_registered weather_agent
                  (JObject {[ "name" := JString "Weather Assistant" ]})
                  (JObject {[ "name" := JString "Weather Assistant" ]})
                  eq_refl eq_refl eq_refl eq_refl eq_refl eq_refl eq_refl eq_refl)).
Defined.

(** ** What a search returns *)

Lemma client_search_ok (body : SearchBody) (env : Env) (s s' : State) (result : SearchResult) :
  client_search body env s = (inr result, s') ->
  hits_hits result = map (hit_of env body) (page_of env body (visible s))
  /\ hits_total_value result
     = Z.min (Z.of_nat (length (matching env (query body) (visible s)))) track_total_hits
  /\ aggregations result = aggregate env (aggs body)
                             (map fst (matching env (query body) (visible s)))
  /\ 0 <= from body /\ 0 <= size_ body /\ from body + size_ body <= max_result_window
  /\ s' = record_call (to_cluster (search_docs body)) s.
Proof.
  unfold client_search, call_cluster, bind, modify, ask, get_state, ret, throw.
  cbn beta iota zeta.
  destruct (reachable env (search_docs body)); [| discriminate].
  destruct (_ || _) eqn:E; [discriminate |].
  apply orb_false_iff in E as [E E3]. apply orb_false_iff in E as [E1 E2].
  apply Z.ltb_ge in E1, E2, E3.
  intros H. injection H as <- <-. cbn. repeat split; auto.
Qed.

Lemma elem_of_insert_sorted {A} (le : A -> A -> bool) (x y : A) (l : list A) :
  x ∈ insert_sorted le y l <-> x = y \/ x ∈ l.
Proof.
  induction l as [| z l IH]; cbn.
  - rewrite list_elem_of_singleton, elem_of_nil. tauto.
  - destruct (le y z); [apply elem_of_cons |]. rewrite !elem_of_cons, IH. tauto.
Qed.

Lemma elem_of_sort_by {A} (le : A -> A -> bool) (x : A) (l : list A) :
  x ∈ sort_by le l <-> x ∈ l.
Proof.
  induction l as [| y l IH]; cbn; [reflexivity |].
  rewrite elem_of_insert_sorted, elem_of_cons, IH. tauto.
Qed.

Lemma insert_sorted_length {A} (le : A -> A -> bool) (x : A) (l : list A) :
  length (insert_sorted le x l) = S (length l).
Proof.
  induction l as [| y l IH]; [reflexivity |]. cbn.
  destruct (le x y); cbn; [reflexivity | rewrite IH; reflexivity].
Qed.

Lemma sort_by_length {A} (le : A -> A -> bool) (l : list A) :
  length (sort_by le l) = length l.
Proof.
  induction l as [| x l IH]; [reflexivity |]. cbn.
  rewrite insert_sorted_length. f_equal. exact IH.
Qed.

Lemma elem_of_page (env : Env) (body : SearchBody) (docs : gmap string AgentData.t)
  (ds : AgentData.t * Q) :
  ds ∈ page_of env body docs ->
  exists id : string, docs !! id = Some (fst ds)
                      /\ score_of env (query body) (fst ds) = Some (snd ds).
Proof.
  unfold page_of. intros H.
  assert (Hin : ds ∈ matching env (query body) docs).
  { apply (elem_of_sort_by (before env body)).
    assert (Hd : ds ∈ drop (Z.to_nat (from body))
                       (sort_by (before env body) (matching env (query body) docs))).
    { rewrite <- (take_drop (Z.to_nat (size_ body))
                    (drop (Z.to_nat (from body))
                       (sort_by (before env body) (matching env (query body) docs)))).
      apply elem_of_app. left. exact H. }
    rewrite <- (take_drop (Z.to_nat (from body))
                  (sort_by (before env body) (matching env (query body) docs))).
    apply elem_of_app. right. exact Hd. }
  unfold matching in Hin. apply list_elem_of_omap in Hin as ([id d] & Hkv & Hsc).
  cbn in Hsc. destruct (score_of env (query body) d) as [sc |] eqn:E; [| discriminate].
  injection Hsc as <-. cbn. exists id. split; [| exact E].
  apply elem_of_map_to_list. exact Hkv.
Qed.

Lemma page_length (env : Env) (body : SearchBody) (docs : gmap string AgentData.t) :
  0 <= size_ body ->
  Z.of_nat (length (page_of env body docs)) <= size_ body.
Proof. intros H. unfold page_of. rewrite length_take. lia. Qed.

Lemma ceil_div_bounds (total perPage : Z) :
  1 <= perPage ->
  total <= ceil_div total perPage * perPage
  /\ (ceil_div total perPage - 1) * perPage < total.
Proof.
  intros Hp. unfold ceil_div.
  pose proof (Z.div_mod (- total) perPage ltac:(lia)) as Hdm.
  pose proof (Z.mod_pos_bound (- total) perPage ltac:(lia)) as Hm.
  split; nia.
Qed.

(** A search answered 200, taken apart. *)
Lemma search_200 (rq : Query.t) (env : Env) (s : State) :
  status (fst (handle (search rq) env s)) = 200 ->
  exists v : Search.t,
    searchQuerySchema rq = inr v
    /\ fst (handle (search rq) env s)
       = {| status := 200;
            body := search_body
                      (map shape_hit
                         (map (hit_of env (compile v)) (page_of env (compile v) (visible s))))
                      {| pg_page := Search.page v; pg_perPage := Search.perPage v;
                         pg_total :=
                           Z.min (Z.of_nat (length (matching env (query (compile v))
                                                      (visible s)))) track_total_hits;
                         pg_totalPages :=
                           ceil_div
                             (Z.min (Z.of_nat (length (matching env (query (compile v))
                                                         (visible s)))) track_total_hits)
                             (Search.perPage v) |}
                      (aggregate env (aggs (compile v))
                         (map fst (matching env (query (compile v)) (visible s)))) |}.
Proof.
  unfold handle, search, try_catch.
  destruct (searchQuerySchema rq) as [e | v]; [discriminate |].
  unfold bind.
  destruct (client_search (compile v) env s) as [[e | result] s'] eqn:E; [discriminate |].
  apply client_search_ok in E as (Hh & Ht & Ha & _).
  intros _. exists v. split; [reflexivity |].
  destruct result as [hh ht ha]. cbn in Hh, Ht, Ha. subst. reflexivity.
Qed.

(** X17: when [lat] and [lon] are both given and non-zero, every agent of
    a search answered 200 is a document visible in the index, carries no
    score, and reports as [distance] the distance the index computed from
    the requested point to that agent's own coordinates (no value when the
    agent has no location). *)
Theorem geo_sorted_hits_report_their_distance
  (rq : Query.t) (v : Search.t) (env : Env) (s : State) (lat lon : Q)
  (agents : list Found) (pagination : Pagination) (aggs : Aggregations) :
  searchQuerySchema rq = inr v ->
  Search.lat v = Some lat -> Search.lon v = Some lon ->
  JS.truthy_number lat = true -> JS.truthy_number lon = true ->
  fst (handle (search rq) env s)
  = {| status := 200; body := search_body agents pagination aggs |} ->
  Forall (fun a =>
            (exists id : string, visible s !! id = Some (found_source a))
            /\ score a = None
            /\ distance a
               = Some (match AgentData.location (found_source a) with
                       | Some l => sv_number (distance_km env lat lon (AgentData.coordinates l))
                       | None => sv_missing
                       end)) agents.
Proof.
  intros Hv Hlat Hlon Tlat Tlon Hres.
  assert (H200 : status (fst (handle (search rq) env s)) = 200) by (rewrite Hres; reflexivity).
  destruct (search_200 rq env s H200) as (v' & Hv' & Hbody).
  assert (v' = v) as -> by congruence.
  rewrite Hbody in Hres. injection Hres as <- _ _.
  pose proof (compile_geo_first v lat lon Hlat Hlon Tlat Tlon) as Hhead.
  apply Forall_forall. intros a Ha.
  apply list_elem_of_fmap in Ha as (h & -> & Hh).
  apply list_elem_of_fmap in Hh as (ds & -> & Hds).
  apply elem_of_page in Hds as (id & Hid & _).
  split; [exists id; exact Hid |].
  unfold shape_hit, hit_of, first_sort_value, sort_values.
  cbn [_source _score sort distance score found_source].
  destruct (sortClause (compile v)) as [| c rest]; [discriminate |].
  injection Hhead as ->. cbn. split; [reflexivity |].
  destruct (AgentData.location (fst ds)); reflexivity.
Qed.

Lemma geo_sorted_hits_report_their_distance_witness :
  Forall (fun a =>
            (exists id : string, visible weather_registered !! id = Some (found_source a))
            /\ score a = None
            /\ distance a
               = Some (match AgentData.location (found_source a) with
                       | Some l => sv_number (distance_km sample_env 40.7128%Q (-74.006)%Q
                                                (AgentData.coordinates l))
                       | None => sv_missing
                       end))
    [{| found_source := weather_agent; score := None; distance := Some (sv_number 0%Q) |}].
Proof.
  apply (geo_sorted_hits_report_their_distance new_york_request
           (Search.mk None None None None None None (Some 40.7128%Q) (Some (-74.006)%Q)
              1 20 distance_)
           sample_env weather_registered 40.7128%Q (-74.006)%Q
           [{| found_source := weather_agent; score := None; distance := Some (sv_number 0%Q) |}]
           {| pg_page := 1; pg_perPage := 20; pg_total := 1; pg_totalPages := 1 |} []);
    reflexivity.
Defined.

(** X18: a search answered 200 echoes the validated page and page size,
    returns at most [perPage] agents and no more than the total, and its
    [totalPages] is the least number of pages of [perPage] agents that hold
    the total. *)
Theorem search_pagination_envelope
  (rq : Query.t) (env : Env) (s : State)
  (agents : list Found) (pagination : Pagination) (aggs : Aggregations) :
  fst (handle (search rq) env s)
  = {| status := 200; body := search_body agents pagination aggs |} ->
  exists v : Search.t,
    searchQuerySchema rq = inr v
    /\ pg_page pagination = Search.page v
    /\ pg_perPage pagination = Search.perPage v
    /\ Z.of_nat (length agents) <= pg_perPage pagination
    /\ Z.of_nat (length agents) <= pg_total pagination
    /\ pg_total pagination <= pg_totalPages pagination * pg_perPage pagination
    /\ (pg_totalPages pagination - 1) * pg_perPage pagination < pg_total pagination.
Proof.
  intros Hres.
  assert (H200 : status (fst (handle (search rq) env s)) = 200) by (rewrite Hres; reflexivity).
  destruct (search_200 rq env s H200) as (v & Hv & Hbody).
  pose proof (searchQuerySchema_inr rq v Hv) as Hb.
  assert (Hpp : 1 <= Search.perPage v <= 100) by tauto. clear Hb.
  assert (Hsize : size_ (compile v) = Search.perPage v) by reflexivity.
  remember (compile v) as query_body eqn:Hq. clear Hq.
  rewrite Hbody in Hres. injection Hres as <- <- _.
  exists v. split; [exact Hv |]. cbn [pg_page pg_perPage pg_total pg_totalPages].
  split; [reflexivity |]. split; [reflexivity |].
  rewrite !length_map.
  split; [| split].
  - rewrite <- Hsize. apply page_length. lia.
  - unfold page_of, track_total_hits.
    rewrite length_take, length_drop, sort_by_length. lia.
  - apply ceil_div_bounds. lia.
Qed.

Lemma search_pagination_envelope_witness :
  exists v : Search.t,
    searchQuerySchema by_name_request = inr v
    /\ pg_page {| pg_page := 1; pg_perPage := 20; pg_total := 1; pg_totalPages := 1 |}
       = Search.page v.
Proof.
  destruct (search_pagination_envelope by_name_request sample_env weather_registered
              [{| found_source := weather_agent; score := None;
                  distance := Some (sv_keyword "Weather Assistant") |}]
              {| pg_page := 1; pg_perPage := 20; pg_total := 1; pg_totalPages := 1 |} []
              eq_refl) as (v & Hv & Hp & _).
  exists v. split; assumption.
Defined.

(** ** What the list returns *)

Lemma parseInt_or_nonzero (parsed : option Z) (fallback : Z) :
  fallback <> 0 -> parseInt_or parsed fallback <> 0.
Proof.
  intros H. unfold parseInt_or. destruct parsed as [n |]; [| exact H].
  destruct (Z.eqb_spec n 0); assumption.
Qed.

Lemma matching_all_length (env : Env) (docs : gmap string AgentData.t) :
  length (matching env match_all docs) = base.size docs.
Proof.
  unfold matching. rewrite <- length_map_to_list.
  induction (map_to_list docs) as [| kv l IH]; [reflexivity |]. cbn. f_equal. exact IH.
Qed.

(** A list request answered 200, taken apart. *)
Lemma listAgents_200 (page perPage : option Z) (env : Env) (s : State) :
  status (fst (handle (listAgents page perPage) env s)) = 200 ->
  fst (handle (listAgents page perPage) env s)
  = {| status := 200;
       body := agents_body
                 (map (fun hit => {| listed_source := _source hit; listed_score := _score hit |})
                    (map (hit_of env (list_body page perPage))
                       (page_of env (list_body page perPage) (visible s))))
                 {| pg_page := parseInt_or page 1; pg_perPage := parseInt_or perPage 20;
                    pg_total := Z.min (Z.of_nat (base.size (visible s))) track_total_hits;
                    pg_totalPages :=
                      ceil_div (Z.min (Z.of_nat (base.size (visible s))) track_total_hits)
                        (parseInt_or perPage 20) |} |}
  /\ 0 <= from (list_body page perPage) /\ 0 <= size_ (list_body page perPage)
  /\ from (list_body page perPage) + size_ (list_body page perPage) <= max_result_window.
Proof.
  unfold handle, listAgents, try_catch. fold (list_body page perPage). unfold bind.
  destruct (client_search (list_body page perPage) env s) as [[e | result] s'] eqn:E;
    [discriminate |].
  apply client_search_ok in E as (Hh & Ht & _ & Hfrom & Hsize & Hwindow & _).
  intros _. destruct result as [hh ht ha]. cbn in Hh, Ht. subst.
  rewrite matching_all_length. split; [reflexivity | repeat split; assumption].
Qed.

(** X19: a list request answered 200 was served with page >= 1 and
    perPage >= 1, where a missing, unparsable or zero parameter counts as
    1 and 20; its [total] is the number of documents visible in the index
    up to 10 000, where the count of the index stops since the route sends
    no [track_total_hits]; it returns at most [perPage] agents, each a
    visible document without score, and [totalPages] is the least number
    of pages that hold that total. *)
Theorem list_counts_every_visible_document
  (page perPage : option Z) (env : Env) (s : State)
  (agents : list Listed) (pagination : Pagination) :
  fst (handle (listAgents page perPage) env s)
  = {| status := 200; body := agents_body agents pagination |} ->
  pg_page pagination = parseInt_or page 1 /\ 1 <= pg_page pagination
  /\ pg_perPage pagination = parseInt_or perPage 20 /\ 1 <= pg_perPage pagination
  /\ pg_total pagination = Z.min (Z.of_nat (base.size (visible s))) track_total_hits
  /\ (Z.of_nat (base.size (visible s)) <= 10000 ->
      pg_total pagination = Z.of_nat (base.size (visible s)))
  /\ (10000 < Z.of_nat (base.size (visible s)) -> pg_total pagination = 10000)
  /\ Z.of_nat (length agents) <= pg_perPage pagination
  /\ Z.of_nat (length agents) <= pg_total pagination
  /\ Forall (fun a => listed_score a = None
                      /\ exists id : string, visible s !! id = Some (listed_source a)) agents
  /\ pg_total pagination <= pg_totalPages pagination * pg_perPage pagination
  /\ (pg_totalPages pagination - 1) * pg_perPage pagination < pg_total pagination.
Proof.
  intros Hres.
  assert (H200 : status (fst (handle (listAgents page perPage) env s)) = 200)
    by (rewrite Hres; reflexivity).
  destruct (listAgents_200 page perPage env s H200) as (Hbody & Hfrom & Hsize & Hwindow).
  rewrite Hbody in Hres. injection Hres as <- <-.
  cbn [pg_page pg_perPage pg_total pg_totalPages].
  cbn [from size_ list_body] in Hfrom, Hsize, Hwindow.
  pose proof (parseInt_or_nonzero perPage 20 ltac:(discriminate)) as Hnz.
  pose proof (parseInt_or_nonzero page 1 ltac:(discriminate)) as Hnz1.
  assert (Hpp : 1 <= parseInt_or perPage 20) by lia.
  assert (Hp : 1 <= parseInt_or page 1).
  { unfold JS.times, JS.minus in Hfrom. apply (proj1 (to_double_sign _)) in Hfrom.
    destruct (Z.le_gt_cases 0 (JS.to_double (parseInt_or page 1 - 1))) as [H1 | H1].
    - apply (proj1 (to_double_sign _)) in H1. lia.
    - nia. }
  unfold track_total_hits, max_result_window in *.
  split; [reflexivity |]. split; [exact Hp |]. split; [reflexivity |]. split; [exact Hpp |].
  split; [reflexivity |]. split; [lia |]. split; [lia |]. rewrite !length_map.
  split; [apply (page_length env (list_body page perPage) (visible s)); exact Hsize |].
  split.
  { unfold page_of. rewrite length_take, length_drop, sort_by_length, matching_all_length.
    cbn [size_ list_body from query]. lia. }
  split; [| apply ceil_div_bounds; exact Hpp].
  apply Forall_forall. intros a Ha.
  apply list_elem_of_fmap in Ha as (h & -> & Hh).
  apply list_elem_of_fmap in Hh as (ds & -> & Hds).
  apply elem_of_page in Hds as (id & Hid & _).
  split; [reflexivity | exists id; exact Hid].
Qed.

Lemma list_counts_every_visible_document_witness :
  pg_total {| pg_page := 1; pg_perPage := 20; pg_total := 1; pg_totalPages := 1 |}
  = Z.min (Z.of_nat (base.size (visible weather_registered))) track_total_hits
  /\ 1 <= pg_page {| pg_page := 1; pg_perPage := 20; pg_total := 1; pg_totalPages := 1 |}.
Proof.
  pose proof (list_counts_every_visible_document (Some 0) None sample_env weather_registered
                [{| listed_source := weather_agent; listed_score := None |}]
                {| pg_page := 1; pg_perPage := 20; pg_total := 1; pg_totalPages := 1 |}
                eq_refl) as (_ & H1 & _ & _ & H2 & _).
  split; assumption.
Defined.

(** ** Start-up and the mapped fields *)

(** X20: [initializeIndex] creates the [agents] index when the cluster
    says it is missing and otherwise changes nothing: an existing [agents]
    index keeps its definition, every other index is untouched, running it
    again after a successful run changes nothing, and a failing cluster
    leaves the indices as they were. *)
Theorem initializeIndex_creates_once (e k : bool) (indices : gmap string IndexBody) :
  fst (initializeIndex true true indices) !! INDEX_NAME
  = Some (default agents_index_body (indices !! INDEX_NAME))
  /\ fst (initializeIndex e k (fst (initializeIndex true true indices)))
     = fst (initializeIndex true true indices)
  /\ (forall name : string, name <> INDEX_NAME ->
        fst (initializeIndex e k indices) !! name = indices !! name)
  /\ (forall body : IndexBody, indices !! INDEX_NAME = Some body ->
        fst (initializeIndex e k indices) = indices)
  /\ fst (initializeIndex false k indices) = indices
  /\ fst (initializeIndex e false indices) = indices.
Proof.
  unfold initializeIndex. split; [| split; [| split; [| split; [| split]]]].
  - destruct (indices !! INDEX_NAME) as [b |] eqn:E; cbn; [exact E | apply lookup_insert_eq].
  - destruct (indices !! INDEX_NAME) as [b |] eqn:E; cbn.
    + destruct e; [rewrite E |]; reflexivity.
    + destruct e; [rewrite lookup_insert_eq |]; reflexivity.
  - intros name Hne. destruct e; [| reflexivity].
    destruct (indices !! INDEX_NAME); [reflexivity |].
    destruct k; [| reflexivity]. cbn. apply lookup_insert_ne. congruence.
  - intros body Hb. destruct e; [rewrite Hb |]; reflexivity.
  - reflexivity.
  - destruct e; [| reflexivity]. destruct (indices !! INDEX_NAME); reflexivity.
Qed.

Lemma compile_must_fits (v : Search.t) :
  forallb (must_fits agents_index_body) (must_of (query (compile v))) = true.
Proof.
  unfold compile. cbn [query must_of].
  destruct (Search.q v) as [q |]; [destruct (JS.truthy_string q) |]; reflexivity.
Qed.

Lemma compile_filter_fits (v : Search.t) :
  forallb (filter_fits agents_index_body) (filter_of (query (compile v))) = true.
Proof.
  unfold compile. cbn [query filter_of].
  destruct (Search.tags v) as [t |]; [destruct (JS.truthy_string t) |];
    (destruct (Search.status v) as [st |]; [destruct (JS.truthy_string st) |]);
    (destruct (Search.version v) as [ver |]; [destruct (JS.truthy_string ver) |]);
    reflexivity.
Qed.

Lemma compile_sort_fits (v : Search.t) :
  forallb (sort_fits agents_index_body) (sortClause (compile v)) = true.
Proof.
  unfold compile. cbn [sortClause].
  destruct (Search.lat v) as [lat |], (Search.lon v) as [lon |];
    try destruct (JS.truthy_number lat); try destruct (JS.truthy_number lon);
    destruct (Search.sort v); destruct (JS.truthy_opt JS.truthy_string (Search.q v));
    reflexivity.
Qed.

(** X21: every field the search and list routes put in a query is
    declared by the index definition of [initializeIndex] with a type that
    fits its use: text for the fields of the text match, keyword for the
    tag, status and version filters and for both aggregations, geo_point for
    the distance sort, keyword or date for the other sorts. *)
Theorem queries_use_mapped_fields (v : Search.t) (page perPage : option Z) :
  query_fits agents_index_body (compile v) = true
  /\ query_fits agents_index_body (list_body page perPage) = true.
Proof.
  split; [| reflexivity]. unfold query_fits.
  rewrite compile_must_fits, compile_filter_fits, compile_sort_fits. reflexivity.
Qed.

Example sorting_on_the_analysed_name_would_not_fit :
  field_type agents_index_body "name" = Some text
  /\ sort_fits agents_index_body (field_sort "name" asc) = false
  /\ sort_fits agents_index_body (field_sort "name.keyword" asc) = true.
Proof. repeat split. Qed.

(** ** Registrations the schema refuses *)

Lemma default_string_given (key d : string) (o : option string) (s : string) :
  Joi.default d (Joi.string_ key) o = inr s -> o <> Some "".
Proof. destruct o as [[| a r] |]; cbn; [discriminate | discriminate ..]. Qed.

Lemma required_given (key : string) (rule : string -> Joi.result string) (o : option string)
  (s : string) :
  (forall a a', rule a = inr a' -> a' = a /\ a <> "") ->
  Joi.required key rule o = inr s -> o <> None /\ o <> Some "".
Proof.
  intros Hr. destruct o as [a |]; cbn; [| discriminate].
  intros H. apply Hr in H as [_ Hne]. split; congruence.
Qed.

Section Refused.

Variable is_uri : string -> bool.

Lemma accepted_is_not_flawed (b : Body.t) (value : Registration.t) :
  agentRegistrationSchema is_uri b = inr value -> ~ flawed b.
Proof.
  unfold agentRegistrationSchema. intros H.
  repeat match type of H with
         | Joi.bind ?c _ = inr _ =>
             let E := fresh "E" in
             destruct c eqn:E; cbn [Joi.bind] in H; [discriminate |]
         end.
  clear H.
  assert (Hstr : forall key a a', Joi.string_ key a = inr a' -> a' = a /\ a <> "").
  { intros key a a' Ha. pose proof (string_inr _ _ _ Ha) as ->.
    split; [reflexivity | eapply string_nonempty; eassumption]. }
  apply required_given in E, E0, E1; try apply Hstr.
  apply required_given in E2;
    [| intros a a' Ha; unfold string_uri in Ha;
       destruct (Joi.string_ "url" a) as [e | a0] eqn:Ea; cbn in Ha; [discriminate |];
       apply Hstr in Ea as [-> Hne]; destruct (is_uri a); [| discriminate];
       injection Ha as <-; split; [reflexivity | exact Hne]].
  apply default_string_given in E5, E6.
  unfold flawed. intros F.
  repeat (destruct F as [F | F]; [tauto |]).
  destruct F as [F | F].
  { destruct F as (tags & Ht & Hin). rewrite Ht in E3. cbn in E3.
    pose proof (array_of_strings_inr _ _ _ _ E3) as ->.
    apply array_of_strings_nonempty in E3.
    rewrite Forall_forall in E3. apply (E3 ""); [apply list_elem_of_In; exact Hin | reflexivity]. }
  destruct F as [F | F].
  { destruct F as (st & Hs & Hnot). rewrite Hs in E4. cbn in E4.
    pose proof (string_valid_inr _ _ _ _ E4) as ->.
    apply string_valid_in in E4. contradiction. }
  repeat (destruct F as [F | F]; [tauto |]).
  destruct F as (bl & Hl & Hc). rewrite Hl in E7. cbn in E7.
  destruct (location_schema bl) as [e | l'] eqn:El; cbn in E7; [discriminate |].
  pose proof (location_schema_valid bl l' El) as (B1 & B2 & B3 & B4 & _).
  apply location_schema_inr in El as (lat & lon & Hco & ->).
  rewrite Hco in Hc. cbn in Hc, B1, B2, B3, B4. tauto.
Qed.

End Refused.

(** X22: a registration with a missing or empty required field, an empty
    tag, an unknown status, an explicitly empty version or capabilities, or
    a location without coordinates or with a coordinate missing or out of
    range, is answered 400 whatever its other fields are, and changes
    nothing. *)
Theorem flawed_registration_is_refused
  (is_uri : string -> bool) (b : Body.t) (env : Env) (s : State) :
  flawed b ->
  exists e : JoiError,
    handle (register is_uri b) env s = ({| status := 400; body := validation_error e |}, s).
Proof.
  intros F. rewrite register_run.
  destruct (agentRegistrationSchema is_uri b) as [e | value] eqn:Hv.
  - exists e. reflexivity.
  - destruct (accepted_is_not_flawed is_uri b value Hv F).
Qed.

Lemma flawed_registration_is_refused_witness :
  exists e : JoiError,
    handle (register is_sample_uri weather_body_as_documented) sample_env initial
    = ({| status := 400; body := validation_error e |}, initial).
Proof.
  apply (flawed_registration_is_refused is_sample_uri weather_body_as_documented
           sample_env initial).
  unfold flawed. do 12 right.
  exists (Body.mk_loc None None None). split; [reflexivity | exact I].
Defined.
